(** * LLVM runtime module of TVM: [src/codegen/llvm/llvm_module.cc]

    A shallow embedding of the class [LLVMModuleNode]: its fields, its
    member functions ([Init], [LazyInitJIT], [PreCompile], [GetFunction],
    [SaveToFile], [SaveToBinary], [GetSource], the destructor) and the
    closure that [GetFunction] returns.  LLVM, the code generator and the
    host runtime are interfaces ([LLVMApi], [HostApi]); every statement
    about the module holds for any implementation of them. *)

From Stdlib Require Import ZArith NArith Ascii String List Bool Lia.
From stdpp Require Import base decidable option list strings gmap.

(** ** Text of diagnostics *)

Module Text.

(** [prefixb p s]: [p] is a prefix of [s]. *)
Fixpoint prefixb (p s : string) : bool :=
  match p with
  | EmptyString => true
  | String a p' =>
      match s with
      | EmptyString => false
      | String b s' => if Ascii.eqb a b then prefixb p' s' else false
      end
  end.

(** [containsb sub s]: [sub] occurs somewhere in [s]. *)
Fixpoint containsb (sub s : string) : bool :=
  prefixb sub s ||
  match s with
  | EmptyString => false
  | String _ s' => containsb sub s'
  end.

(** The property the claims speak of: a message names a string when the
    string occurs in it. *)
Definition contains (sub s : string) : Prop :=
  exists pre post : string, s = pre +:+ sub +:+ post.

End Text.

(** ** Failures and the monad of member functions *)

(** How an operation can end without a result.  [LOG(FATAL)] and a failed
    [CHECK] raise [dmlc::Error] with the logged text; a null pointer that is
    dereferenced, and an empty [std::function] that is called, are kept
    apart from them. *)
Inductive Failure : Type :=
| FatalError (msg : string)
| NullDereference
| BadFunctionCall.

Inductive Outcome (A : Type) : Type :=
| Done (a : A)
| Fail (f : Failure).
Arguments Done {A} a.
Arguments Fail {A} f.

(** A computation over a mutable state [S]: the state is returned on both
    exits, so that what was done before a failure stays visible. *)
Definition M (S A : Type) : Type := S -> Outcome A * S.

Definition ret {S A} (a : A) : M S A := fun s => (Done a, s).

Definition bind {S A B} (m : M S A) (k : A -> M S B) : M S B :=
  fun s =>
    match m s with
    | (Done a, s') => k a s'
    | (Fail f, s') => (Fail f, s')
    end.

Definition fail {S A} (f : Failure) : M S A := fun s => (Fail f, s).
Definition get {S} : M S S := fun s => (Done s, s).
Definition modify {S} (g : S -> S) : M S unit := fun s => (Done tt, g s).

#[global] Instance M_ret {S} : MRet (M S) := @ret S.
#[global] Instance M_bind {S} : MBind (M S) := fun A B k m => bind m k.

(** [CHECK(cond) << msg], [CHECK_EQ], [CHECK_NE] of dmlc's logging: when the
    condition is false the text [Check failed: <condition> ] followed by the
    streamed message is raised.  The time stamp, file and line that the
    logger puts in front are left out. *)
Definition CHECK {S} (cond : bool) (cond_text msg : string) : M S unit :=
  if cond then ret tt
  else fail (FatalError ("Check failed: " +:+ cond_text +:+ " " +:+ msg)).

Definition LOG_FATAL {S A} (msg : string) : M S A := fail (FatalError msg).

(** [*p] and [p->f] on a pointer that may be null. *)
Definition deref {S A} (p : option A) : M S A :=
  match p with
  | Some a => ret a
  | None => fail NullDereference
  end.

Definition is_null {A} (p : option A) : bool :=
  match p with
  | Some _ => false
  | None => true
  end.

(** ** The process around the module *)

(** Calls whose order matters, in the order they are made. *)
Inductive Event : Type :=
| EvInitializeLLVM
| EvEngineBuilder (has_module : bool)   (* llvm::EngineBuilder builder(std::move(module_)) *)
| EvCreateEngine                        (* builder.create(tm) *)
| EvRunStatic (isDtors : bool)          (* ee_->runStaticConstructorsDestructors(isDtors) *)
| EvStore (addr value : N)              (* the store through ctx_addr *)
| EvDeleteModule                        (* module_.reset() on an owned unit *)
| EvDeleteEngine                        (* delete ee_ *)
| EvInvoke (faddr : N).                 (* the call through faddr *)

#[global] Instance Event_eq_dec : EqDecision Event.
Proof. solve_decision. Defined.

(** [std::error_code]. *)
Record error_code : Type := mk_error_code {
  ec_value : Z;
  ec_message : string
}.

Record Process : Type := mkProcess {
  events : list Event;
  heap : gmap N N;                      (* pointer cells written through raw addresses *)
  files : gmap string string;           (* contents of the files written *)
  open_status : string -> error_code;   (* what opening a path for writing reports *)
  last_error : string                   (* what TVMGetLastError() returns *)
}.

Definition log_event (e : Event) (p : Process) : Process :=
  mkProcess (events p ++ [e]) (heap p) (files p) (open_status p) (last_error p).

Definition store_cell (addr value : N) (p : Process) : Process :=
  mkProcess (events p ++ [EvStore addr value]) (<[addr := value]> (heap p))
            (files p) (open_status p) (last_error p).

Definition set_file (path data : string) (p : Process) : Process :=
  mkProcess (events p) (heap p) (<[path := data]> (files p))
            (open_status p) (last_error p).

(** [llvm::raw_fd_ostream dest(file_name, ecode, F_None)]: on success the
    file exists and is empty. *)
Definition open_truncate (path : string) (p : Process) : error_code * Process :=
  let ec := open_status p path in
  (ec, if Z.eqb (ec_value ec) 0 then set_file path "" p else p).

(** [dest << data] on an open stream. *)
Definition append_file (path data : string) (p : Process) : Process :=
  set_file path (default "" (files p !! path) +:+ data) p.

Definition count_event (e : Event) (l : list Event) : nat :=
  length (filter (fun x => x = e) l).

(** [a] happens before [b] in a run of events. *)
Definition happens_before (a b : Event) (l : list Event) : Prop :=
  exists l1 l2 l3, l = l1 ++ a :: l2 ++ b :: l3.

(** ** The interfaces the module is written against *)

Inductive EngineKind : Type := Either | JIT | Interpreter.
Inductive CodeGenOptLevel : Type := OptNone | OptLess | OptDefault | OptAggressive.

(** [llvm::EngineBuilder]: the unit it was given and what was set on it. *)
Record EngineBuilder (Mod : Type) : Type := mkEngineBuilder {
  eb_module : option Mod;
  eb_kind : EngineKind;
  eb_opt : CodeGenOptLevel
}.
Arguments mkEngineBuilder {Mod} _ _ _.
Arguments eb_module {Mod} _.
Arguments eb_kind {Mod} _.
Arguments eb_opt {Mod} _.

Definition newEngineBuilder {Mod} (m : option Mod) : EngineBuilder Mod :=
  mkEngineBuilder m Either OptDefault.
Definition setEngineKind {Mod} (k : EngineKind) (b : EngineBuilder Mod) :=
  mkEngineBuilder (eb_module b) k (eb_opt b).
Definition setOptLevel {Mod} (o : CodeGenOptLevel) (b : EngineBuilder Mod) :=
  mkEngineBuilder (eb_module b) (eb_kind b) o.

(** The part of LLVM the module calls.  Addresses are [uint64_t]; address
    [0] is the null pointer, which is what the engine returns for a name it
    cannot resolve. *)
Class LLVMApi : Type := {
  DataLayout : Type;
  DataLayout_eq_dec :: EqDecision DataLayout;
  getStringRepresentation : DataLayout -> string;
  llvm_Module : Type;
  getTargetTriple : llvm_Module -> string;
  getDataLayout : llvm_Module -> DataLayout;
  print : llvm_Module -> string;
  WriteBitcode : llvm_Module -> string;
  TargetMachine : Type;
  createDataLayout : TargetMachine -> DataLayout;
  addPassesToEmitFile : TargetMachine -> bool;   (* true: cannot emit this file type *)
  emitObjectFile : TargetMachine -> llvm_Module -> string;
  ExecutionEngine : Type;
  selectTarget : EngineBuilder llvm_Module -> option TargetMachine;
  create : EngineBuilder llvm_Module -> TargetMachine -> option ExecutionEngine;
  getFunctionAddress : ExecutionEngine -> string -> N;
  getGlobalValueAddress : ExecutionEngine -> string -> N
}.

(** [LoweredFunc]: [Init] reads the name only. *)
Record LoweredFunc : Type := mkLoweredFunc {
  name : string;
  body : N
}.

Inductive LLVMContext : Type := mkLLVMContext.

(** Modelled from the spec: the code generator [CodeGenLLVM] of
    codegen_llvm.h, which is not among the sources.  The spec treats it as a
    collaborator that turns function definitions into the code unit; here it
    keeps the definitions it was handed, in order, and the main function it
    was told, and [cg_Finish] of [HostApi] turns that into the unit. *)
Record CodeGenLLVM : Type := mkCodeGenLLVM {
  cg_module_name : string;
  cg_target : string;
  cg_functions : list LoweredFunc;
  cg_main : option string
}.

Definition cg_Init (module_name target : string) (ctx : LLVMContext) : CodeGenLLVM :=
  mkCodeGenLLVM module_name target [] None.
Definition cg_AddFunction (cg : CodeGenLLVM) (f : LoweredFunc) : CodeGenLLVM :=
  mkCodeGenLLVM (cg_module_name cg) (cg_target cg) (cg_functions cg ++ [f]) (cg_main cg).
Definition cg_AddMainFunction (cg : CodeGenLLVM) (entry : string) : CodeGenLLVM :=
  mkCodeGenLLVM (cg_module_name cg) (cg_target cg) (cg_functions cg) (Some entry).

(** [TVMArgs]: value slots, type codes, count. *)
Record TVMArgs : Type := mkTVMArgs {
  values : list Z;
  type_codes : list Z;
  num_args : Z
}.

Record TVMContext : Type := mkTVMContext {
  device_type : Z;
  device_id : Z
}.

(** The rest of TVM that the file uses and that is not among the sources.
    [call_packed faddr args] is the jump into the code at [faddr], with the
    [BackendPackedCFunc] signature: it returns the [int] status and may
    change the process, the recorded last error included. *)
Class HostApi `{LLVMApi} : Type := {
  tvm_module_ctx : string;                                   (* runtime::symbol::tvm_module_ctx *)
  GetFileFormat : string -> string -> string;                (* runtime/file_util.h *)
  GetLLVMTarget : string -> option TargetMachine * string;   (* llvm_common.h *)
  cg_Finish : CodeGenLLVM -> llvm_Module;
  call_packed : N -> TVMArgs -> Process -> Z * Process
}.

(** ** The class [LLVMModuleNode] *)

Section LLVMModuleNode.
Context {llvm : LLVMApi} {host : HostApi}.

(** The data members, lines 141-154; [mutex_] is in the multi-threaded
    model below.  [mptr_] observes the unit that [module_] owns until the
    engine takes it. *)
Record LLVMModuleNode : Type := mkNode {
  target_triple_ : string;
  ee_ : option ExecutionEngine;
  mptr_ : option llvm_Module;
  tm_ : option TargetMachine;
  module_ : option llvm_Module;
  ctx_ : option LLVMContext
}.

(** A freshly made node: every member at its default. *)
Definition new_node : LLVMModuleNode :=
  mkNode "" None None None None None.

(** One module instance in its process: [this] is its address. *)
Record State : Type := mkState {
  this : N;
  node : LLVMModuleNode;
  proc : Process
}.

Definition set_ee (e : option ExecutionEngine) (s : State) : State :=
  let n := node s in
  mkState (this s)
    (mkNode (target_triple_ n) e (mptr_ n) (tm_ n) (module_ n) (ctx_ n)) (proc s).

Definition set_module (m : option llvm_Module) (s : State) : State :=
  let n := node s in
  mkState (this s)
    (mkNode (target_triple_ n) (ee_ n) (mptr_ n) (tm_ n) m (ctx_ n)) (proc s).

Definition set_mptr (m : option llvm_Module) (s : State) : State :=
  let n := node s in
  mkState (this s)
    (mkNode (target_triple_ n) (ee_ n) m (tm_ n) (module_ n) (ctx_ n)) (proc s).

Definition set_target (tm : option TargetMachine) (triple : string) (s : State) : State :=
  let n := node s in
  mkState (this s)
    (mkNode triple (ee_ n) (mptr_ n) tm (module_ n) (ctx_ n)) (proc s).

Definition set_ctx (c : option LLVMContext) (s : State) : State :=
  let n := node s in
  mkState (this s)
    (mkNode (target_triple_ n) (ee_ n) (mptr_ n) (tm_ n) (module_ n) c) (proc s).

Definition on_proc (g : Process -> Process) (s : State) : State :=
  mkState (this s) (node s) (g (proc s)).

Definition log (e : Event) : M State unit := modify (on_proc (log_event e)).

(** [std::lock_guard<std::mutex> lock(mutex_)] around the rest of a
    function body, when one thread runs alone: the mutex is free when the
    guard is made and free again when it goes out of scope. *)
Definition lock_guard {A} (m : M State A) : M State A := m.

(** *** [LazyInitJIT], lines 115-140 *)

(** Line 116, before the lock is taken. *)
Definition LazyInitJIT_guard : M State unit :=
  s ← get;
  CHECK (is_null (ee_ (node s))) "ee_ == nullptr" "".

Definition layout_mismatch_message (module_layout engine_layout : DataLayout) : string :=
  "Data layout mismatch between module("
    +:+ getStringRepresentation module_layout +:+ ")"
    +:+ " and ExecutionEngine ("
    +:+ getStringRepresentation engine_layout +:+ ")".

(** Lines 119-121: the builder takes the unit out of [module_] and is set
    up for the JIT at the highest optimisation level. *)
Definition jit_builder (owned : option llvm_Module) : EngineBuilder llvm_Module :=
  setOptLevel OptAggressive (setEngineKind JIT (newEngineBuilder owned)).

(** Lines 118-139, under the lock. *)
Definition LazyInitJIT_locked : M State unit :=
  s ← get;
  m ← deref (mptr_ (node s));
  let target_triple := getTargetTriple m in
  let builder := jit_builder (module_ (node s)) in
  modify (set_module None);;
  log (EvEngineBuilder (negb (is_null (module_ (node s)))));;
  tm ← deref (selectTarget builder);
  let layout := createDataLayout tm in
  CHECK (bool_decide (layout = getDataLayout m))
        "layout == mptr_->getDataLayout()"
        (layout_mismatch_message (getDataLayout m) layout);;
  log EvCreateEngine;;
  modify (set_ee (create builder tm));;
  CHECK (negb (is_null (create builder tm)))
        "ee_ != nullptr"
        ("Failed to initialize git engine for " +:+ target_triple);;
  e ← deref (create builder tm);
  log (EvRunStatic false);;
  let ctx_addr := getGlobalValueAddress e tvm_module_ctx in
  if N.eqb ctx_addr 0 then ret tt
  else s' ← get; modify (on_proc (store_cell ctx_addr (this s'))).

Definition LazyInitJIT : M State unit :=
  LazyInitJIT_guard;; lock_guard LazyInitJIT_locked.

(** Lines 37 and 48: [if (ee_ == nullptr) LazyInitJIT();] *)
Definition ensure_engine : M State unit :=
  s ← get;
  if is_null (ee_ (node s)) then LazyInitJIT else ret tt.

(** [ee_->getFunctionAddress(name)], lines 39-40 and 50-51. *)
Definition lookup_address (fname : string) : M State N :=
  s ← get;
  e ← deref (ee_ (node s));
  ret (getFunctionAddress e fname).

(** *** [PreCompile], lines 36-43 *)
Definition PreCompile (fname : string) (ctx : TVMContext) : M State unit :=
  ensure_engine;;
  lock_guard (
    faddr ← lookup_address fname;
    CHECK (negb (N.eqb faddr 0)) "faddr != nullptr"
          ("Failed to Precompile function " +:+ fname)).

(** *** [GetFunction], lines 45-60 *)

(** [PackedFunc]: empty, or the closure of lines 53-59 with what it
    captured. *)
Inductive PackedFunc : Type :=
| PackedFunc_null
| PackedFunc_closure (faddr : N) (sptr_to_self : N).

(** Lines 50-59, under the lock. *)
Definition GetFunction_locked (fname : string) (sptr_to_self : N) : M State PackedFunc :=
  faddr ← lookup_address fname;
  if N.eqb faddr 0 then ret PackedFunc_null
  else ret (PackedFunc_closure faddr sptr_to_self).

Definition GetFunction (fname : string) (sptr_to_self : N) : M State PackedFunc :=
  ensure_engine;;
  lock_guard (GetFunction_locked fname sptr_to_self).

(** The body of the closure, lines 54-58.  The last error is read after
    the call, and only when the status is not zero. *)
Definition closure_body (faddr : N) (args : TVMArgs) : M Process unit :=
  fun p =>
    let '(status, p') := call_packed faddr args (log_event (EvInvoke faddr) p) in
    CHECK (Z.eqb status 0) "ret == 0" (last_error p') p'.

(** Calling a [PackedFunc]; an empty one has no body to call. *)
Definition PackedFunc_call (f : PackedFunc) (args : TVMArgs) : M Process unit :=
  match f with
  | PackedFunc_null => fail BadFunctionCall
  | PackedFunc_closure faddr _ => closure_body faddr args
  end.

(** *** [SaveToFile], lines 62-85

    What is written to [dest] is taken as being in the file at once, so
    that [dest.close()] of line 84 changes nothing. *)

Definition unknown_format_message (file_name format : string) : string :=
  "Do not know how to save file " +:+ file_name
    +:+ " with format='" +:+ format +:+ "'".

Definition write (path data : string) : M State unit :=
  modify (on_proc (append_file path data)).

Definition SaveToFile (file_name format : string) : M State unit :=
  let fmt := GetFileFormat file_name format in
  s ← get;
  let '(ecode, p') := open_truncate file_name (proc s) in
  modify (on_proc (fun _ => p'));;
  CHECK (Z.eqb (ec_value ecode) 0) "ecode.value() == 0"
        ("Cannot open file: " +:+ file_name +:+ " " +:+ ec_message ecode);;
  (if bool_decide (fmt = "o") || bool_decide (fmt = "obj") then
     CHECK (negb (is_null (tm_ (node s)))) "tm_" "";;
     tm ← deref (tm_ (node s));
     CHECK (negb (addPassesToEmitFile tm))
           "tm_->addPassesToEmitFile( pass, dest, llvm::TargetMachine::CGFT_ObjectFile) == 0"
           "Cannot emit target CGFT_ObjectFile";;
     m ← deref (mptr_ (node s));
     write file_name (emitObjectFile tm m)
   else if bool_decide (fmt = "ll") then
     m ← deref (mptr_ (node s));
     write file_name (print m)
   else if bool_decide (fmt = "bc") then
     m ← deref (mptr_ (node s));
     write file_name (WriteBitcode m)
   else
     LOG_FATAL (unknown_format_message file_name format)).

(** *** [SaveToBinary], lines 87-89 *)
Definition SaveToBinary : M State unit :=
  LOG_FATAL "LLVMModule: SaveToBinary not supported".

(** *** [GetSource], lines 91-97 *)
Definition GetSource (format : string) : M State string :=
  s ← get;
  CHECK (negb (is_null (mptr_ (node s)))) "mptr_ != nullptr" "";;
  m ← deref (mptr_ (node s));
  ret (print m).

(** *** [Init], lines 99-112 *)
Definition Init (funcs : list LoweredFunc) (target : string) : M State unit :=
  log EvInitializeLLVM;;
  modify (set_target (fst (GetLLVMTarget target)) (snd (GetLLVMTarget target)));;
  CHECK (negb (Nat.eqb (length funcs) 0)) "funcs.size() != 0U" "";;
  modify (set_ctx (Some mkLLVMContext));;
  f0 ← deref (head funcs);
  let cg := cg_Init (name f0) target mkLLVMContext in
  let cg := fold_left cg_AddFunction funcs cg in
  let cg := cg_AddMainFunction cg (name f0) in
  modify (set_module (Some (cg_Finish cg)));;
  modify (set_mptr (Some (cg_Finish cg))).

(** *** The destructor, lines 24-30 *)
Definition destroy : M State unit :=
  s ← get;
  (if is_null (module_ (node s)) then ret tt else log EvDeleteModule);;
  modify (set_module None);;
  if is_null (ee_ (node s)) then ret tt
  else log (EvRunStatic true);; log EvDeleteEngine.

(** *** [codegen.build_llvm], lines 157-162 *)
Definition build_llvm (address : N) (funcs : list LoweredFunc) (target : string)
           (p : Process) : Outcome unit * State :=
  Init funcs target (mkState address new_node p).

(** *** States that the facts below speak of *)

(** The state [LazyInitJIT] leaves when it succeeds: the unit moved out
    of [module_], the engine in [ee_], and the process after the calls
    made. *)
Definition constructed (s : State) (e : ExecutionEngine) : State :=
  let a := getGlobalValueAddress e tvm_module_ctx in
  let p0 := log_event (EvRunStatic false)
              (log_event EvCreateEngine
                (log_event (EvEngineBuilder (negb (is_null (module_ (node s)))))
                   (proc s))) in
  mkState (this s)
    (mkNode (target_triple_ (node s)) (Some e) (mptr_ (node s)) (tm_ (node s))
            None (ctx_ (node s)))
    (if N.eqb a 0 then p0 else store_cell a (this s) p0).

(** The state once the destination was opened: the file is there, empty. *)
Definition opened (file_name : string) (s : State) : State :=
  on_proc (set_file file_name "") s.

(** The state once [data] went to the opened destination. *)
Definition written (file_name data : string) (s : State) : State :=
  on_proc (append_file file_name data) (opened file_name s).

End LLVMModuleNode.

(** ** Several threads in [GetFunction]

    The same statements, run by several threads that share one module.  A
    step of a thread is one of the pieces of [GetFunction] between which
    another thread can run: the test of line 48, the [CHECK] of line 116,
    taking [mutex_] (lines 117 and 49), and the two bodies that run with
    [mutex_] held, each of which ends by releasing it. *)

Section Threads.
Context {llvm : LLVMApi} {host : HostApi}.

Inductive Location : Type :=
| AtEntry                                (* line 48, before ee_ is read *)
| AtGuard                                (* line 116 *)
| AtInitLock                             (* line 117, mutex_ wanted *)
| AtInitBody                             (* lines 118-139, mutex_ held *)
| AtLookupLock                           (* line 49, mutex_ wanted *)
| AtLookup                               (* lines 50-59, mutex_ held *)
| Finished (r : Outcome PackedFunc).     (* returned, or failed *)

Record Thread : Type := mkThread {
  th_name : string;        (* the argument name *)
  th_sptr : N;             (* the argument sptr_to_self *)
  th_at : Location
}.

Record Config : Type := mkConfig {
  shared : State;
  mutex_ : option nat;     (* the thread that holds the mutex *)
  threads : list Thread
}.

Definition move (tid : nat) (t : Thread) (l : Location) (c : Config)
           (s : State) (mu : option nat) : Config :=
  mkConfig s mu (<[tid := mkThread (th_name t) (th_sptr t) l]> (threads c)).

Definition acquire (tid : nat) (t : Thread) (next : Location) (c : Config) : Config :=
  match mutex_ c with
  | None => move tid t next c (shared c) (Some tid)
  | Some _ => c
  end.

Definition step (tid : nat) (c : Config) : Config :=
  match threads c !! tid with
  | None => c
  | Some t =>
      match th_at t with
      | AtEntry =>
          if is_null (ee_ (node (shared c)))
          then move tid t AtGuard c (shared c) (mutex_ c)
          else move tid t AtLookupLock c (shared c) (mutex_ c)
      | AtGuard =>
          match LazyInitJIT_guard (shared c) with
          | (Done _, s) => move tid t AtInitLock c s (mutex_ c)
          | (Fail f, s) => move tid t (Finished (Fail f)) c s (mutex_ c)
          end
      | AtInitLock => acquire tid t AtInitBody c
      | AtInitBody =>
          match LazyInitJIT_locked (shared c) with
          | (Done _, s) => move tid t AtLookupLock c s None
          | (Fail f, s) => move tid t (Finished (Fail f)) c s None
          end
      | AtLookupLock => acquire tid t AtLookup c
      | AtLookup =>
          match GetFunction_locked (th_name t) (th_sptr t) (shared c) with
          | (r, s) => move tid t (Finished r) c s None
          end
      | Finished _ => c
      end
  end.

(** A schedule names the thread that makes each step. *)
Definition run (schedule : list nat) (c : Config) : Config :=
  fold_left (fun c tid => step tid c) schedule c.

Definition start (s : State) (calls : list (string * N)) : Config :=
  mkConfig s None (map (fun '(n, p) => mkThread n p AtEntry) calls).

Definition is_builder_event (e : Event) : bool :=
  match e with
  | EvEngineBuilder _ => true
  | _ => false
  end.

(** The construction counter: how many times an engine builder was made. *)
Definition constructions (s : State) : nat :=
  length (filter is_builder_event (events (proc s))).

Definition result_of (tid : nat) (c : Config) : option (Outcome PackedFunc) :=
  match threads c !! tid with
  | Some t => match th_at t with Finished r => Some r | _ => None end
  | None => None
  end.

End Threads.

(** ** Notions that the further facts speak of *)

Section Notions.
Context {llvm : LLVMApi} {host : HostApi}.

(** The places at which a thread is inside a [std::lock_guard] scope. *)
Definition holds_mutex (l : Location) : bool :=
  match l with
  | AtInitBody | AtLookup => true
  | _ => false
  end.

(** The thread noted as holder of [mutex_] is inside a guarded scope, and
    no other thread is. *)
Definition lock_discipline (c : Config) : Prop :=
  forall tid t,
    threads c !! tid = Some t ->
    (holds_mutex (th_at t) = true <-> mutex_ c = Some tid).

(** Where a thread can be when the engine was there before any thread
    started, and what it has returned if it has. *)
Definition past_construction (s : State) (t : Thread) (call : string * N) : Prop :=
  th_name t = fst call
  /\ th_sptr t = snd call
  /\ match th_at t with
     | AtEntry | AtLookupLock | AtLookup => True
     | Finished r => r = fst (GetFunction (th_name t) (th_sptr t) s)
     | AtGuard | AtInitLock | AtInitBody => False
     end.

(** The module is still [s], and every thread is past construction for
    the call it was started with. *)
Definition all_past_construction (s : State) (calls : list (string * N))
           (c : Config) : Prop :=
  shared c = s
  /\ forall tid t,
       threads c !! tid = Some t ->
       exists call, calls !! tid = Some call /\ past_construction s t call.

(** The text of the failure of line 41. *)
Definition precompile_message (fname : string) : string :=
  "Check failed: faddr != nullptr Failed to Precompile function " +:+ fname.

End Notions.

(** ** A small implementation of the interfaces, to run the model on *)

Module Toy.

Record ToyUnit : Type := mkToyUnit {
  u_triple : string;
  u_layout : string;
  u_text : string;
  u_functions : gmap string N;
  u_globals : gmap string N
}.

Definition host_layout : string := "e-m:e-i64:64-f80:128-n8:16:32:64-S128".
Definition other_layout : string := "E-m:e-p:32:32-i64:64-n32-S64".

#[export] Instance toy_llvm : LLVMApi := {|
  DataLayout := string;
  getStringRepresentation := fun l => l;
  llvm_Module := ToyUnit;
  getTargetTriple := u_triple;
  getDataLayout := u_layout;
  print := u_text;
  WriteBitcode := fun m => "BC" +:+ u_text m;
  TargetMachine := string;
  createDataLayout := fun tm => tm;
  addPassesToEmitFile := fun tm => false;
  emitObjectFile := fun tm m => "ELF" +:+ u_text m;
  ExecutionEngine := ToyUnit;
  selectTarget := fun b => Some host_layout;
  create := fun b tm => eb_module b;
  getFunctionAddress := fun e fname => default 0%N (u_functions e !! fname);
  getGlobalValueAddress := fun e gname => default 0%N (u_globals e !! gname)
|}.

(** Modelled from the spec: [GetFileFormat] of runtime/file_util.h, which is
    not among the sources: the format is the explicit format argument, or,
    when that is empty, it is inferred from the suffix of the path. *)
Fixpoint suffix_of (path : string) : option string :=
  match path with
  | EmptyString => None
  | String c rest =>
      match suffix_of rest with
      | Some sfx => Some sfx
      | None => if Ascii.eqb c "." then Some rest else None
      end
  end.

Definition GetFileFormat_model (file_name format : string) : string :=
  match format with
  | EmptyString => default "" (suffix_of file_name)
  | _ => format
  end.

(** The unit the toy code generator finishes: function number [i] of the
    definitions is put at address [16 * (i + 1)], and the context slot at
    address 4096. *)
Fixpoint place (fs : list LoweredFunc) (i : N) : gmap string N :=
  match fs with
  | [] => ∅
  | f :: rest => <[name f := (16 * (i + 1))%N]> (place rest (i + 1))
  end.

Definition finish (cg : CodeGenLLVM) : ToyUnit :=
  mkToyUnit "x86_64-unknown-linux-gnu" host_layout
            ("; ModuleID = '" +:+ cg_module_name cg +:+ "'")
            (place (cg_functions cg) 0)
            {["__tvm_module_ctx" := 4096%N]}.

(** Generated functions of the toy: they take one argument; with any other
    count they record an error and return -1. *)
Definition call (faddr : N) (args : TVMArgs) (p : Process) : Z * Process :=
  if Z.eqb (num_args args) 1 then (0%Z, p)
  else ((-1)%Z,
        mkProcess (events p) (heap p) (files p) (open_status p)
                  "Assert fail: (num_args == 1)").

#[export] Instance toy_host : HostApi := {|
  tvm_module_ctx := "__tvm_module_ctx";
  GetFileFormat := GetFileFormat_model;
  GetLLVMTarget := fun target => (Some host_layout, "x86_64-unknown-linux-gnu");
  cg_Finish := finish;
  call_packed := call
|}.

(** A file system in which only paths under [/ro/] cannot be opened. *)
Definition toy_open (path : string) : error_code :=
  if Text.prefixb "/ro/" path then mk_error_code 13 "Permission denied"
  else mk_error_code 0 "Success".

Definition process0 : Process := mkProcess [] ∅ ∅ toy_open "".

Definition fadd : LoweredFunc := mkLoweredFunc "fadd" 1.
Definition fmul : LoweredFunc := mkLoweredFunc "fmul" 2.

(** The module [build_llvm] makes from two definitions, at address 256. *)
Definition built : State := snd (build_llvm 256 [fadd; fmul] "llvm" process0).

(** The same after its engine was constructed. *)
Definition ready : State := snd (LazyInitJIT built).

(** The unit of [built]. *)
Definition the_unit : ToyUnit :=
  finish (cg_AddMainFunction
            (fold_left cg_AddFunction [fadd; fmul]
                       (cg_Init "fadd" "llvm" mkLLVMContext))
            "fadd").

(** A module whose unit records a layout the host target does not have. *)
Definition foreign_unit : ToyUnit :=
  mkToyUnit "armv7-none-linux-gnueabihf" other_layout "" ∅ ∅.

Definition mismatched : State :=
  mkState 256
          (mkNode "" None (Some foreign_unit) None (Some foreign_unit)
                  (Some mkLLVMContext))
          process0.

(** The process after the toy function at 32 was called with two
    arguments. *)
Definition after_bad_call : Process :=
  mkProcess [EvInvoke 32] ∅ ∅ toy_open "Assert fail: (num_args == 1)".

(** A node on which [Init] was never called. *)
Definition fresh : State := mkState 256 new_node process0.

(** [built] after its unit was taken away: [mptr_] still observes it. *)
Definition unowned : State := set_module None built.

(** [built] after its text was saved to [out.ll]. *)
Definition saved : State := snd (SaveToFile "out.ll" "" built).


End Toy.

(** The toy again, with a target machine that cannot emit object files. *)

Module ToyNoObject.

#[export] Instance llvm_no_object : LLVMApi := {|
  DataLayout := string;
  getStringRepresentation := fun l => l;
  llvm_Module := Toy.ToyUnit;
  getTargetTriple := Toy.u_triple;
  getDataLayout := Toy.u_layout;
  print := Toy.u_text;
  WriteBitcode := fun m => "BC" +:+ Toy.u_text m;
  TargetMachine := string;
  createDataLayout := fun tm => tm;
  addPassesToEmitFile := fun tm => true;
  emitObjectFile := fun tm m => "";
  ExecutionEngine := Toy.ToyUnit;
  selectTarget := fun b => Some Toy.host_layout;
  create := fun b tm => eb_module b;
  getFunctionAddress := fun e fname => default 0%N (Toy.u_functions e !! fname);
  getGlobalValueAddress := fun e gname => default 0%N (Toy.u_globals e !! gname)
|}.

#[export] Instance host_no_object : HostApi := {|
  tvm_module_ctx := "__tvm_module_ctx";
  GetFileFormat := Toy.GetFileFormat_model;
  GetLLVMTarget := fun target => (Some Toy.host_layout, "x86_64-unknown-linux-gnu");
  cg_Finish := Toy.finish;
  call_packed := Toy.call
|}.

Definition built : State :=
  snd (build_llvm 256 [Toy.fadd; Toy.fmul] "llvm" Toy.process0).

End ToyNoObject.

(** * Facts *)

(** ** Text *)

Lemma append_nil (s : string) : "" +:+ s = s.
Proof. reflexivity. Qed.

Lemma append_cons (a : ascii) (s t : string) :
  String a s +:+ t = String a (s +:+ t).
Proof. reflexivity. Qed.

Lemma append_assoc (a b c : string) : (a +:+ b) +:+ c = a +:+ (b +:+ c).
Proof.
  induction a as [|x a IH]; [reflexivity|].
  now rewrite !append_cons, IH.
Qed.

Lemma prefixb_spec (p s : string) :
  Text.prefixb p s = true <-> exists post, s = p +:+ post.
Proof.
  revert s; induction p as [|a p IH]; intros s; simpl.
  - split; [intros _; now exists s | reflexivity].
  - destruct s as [|b s].
    + split; [discriminate | intros [post H]; discriminate].
    + destruct (Ascii.eqb_spec a b) as [->|Hne].
      * rewrite IH. split; intros [post H]; exists post.
        -- now rewrite append_cons, H.
        -- rewrite append_cons in H. now injection H.
      * split; [discriminate |].
        intros [post H]. rewrite append_cons in H. injection H; congruence.
Qed.

Lemma containsb_spec (sub s : string) :
  Text.containsb sub s = true <-> Text.contains sub s.
Proof.
  unfold Text.contains. induction s as [|b s IH]; simpl.
  - rewrite orb_false_r, prefixb_spec. split.
    + intros [post H]. now exists EmptyString, post.
    + intros [pre [post H]]. destruct pre; [now exists post | discriminate].
  - rewrite orb_true_iff, prefixb_spec, IH. split.
    + intros [[post H] | [pre [post H]]].
      * now exists EmptyString, post.
      * exists (String b pre), post. now rewrite append_cons, H.
    + intros [pre [post H]]. destruct pre as [|c pre].
      * left. now exists post.
      * right. exists pre, post. rewrite append_cons in H. now injection H.
Qed.

Lemma append_nil_r (s : string) : s +:+ "" = s.
Proof.
  induction s as [|x s IH]; [reflexivity|].
  now rewrite append_cons, IH.
Qed.

Lemma contains_refl (s : string) : Text.contains s s.
Proof. exists EmptyString, EmptyString. now rewrite append_nil, append_nil_r. Qed.

Lemma contains_here (sub post : string) : Text.contains sub (sub +:+ post).
Proof. now exists EmptyString, post. Qed.

Lemma contains_skip (sub pre s : string) :
  Text.contains sub s -> Text.contains sub (pre +:+ s).
Proof.
  intros [a [b H]]. exists (pre +:+ a), b.
  now rewrite H, append_assoc.
Qed.

Lemma contains_ext (sub s post : string) :
  Text.contains sub s -> Text.contains sub (s +:+ post).
Proof.
  intros [a [b H]]. exists a, (b +:+ post).
  now rewrite H, !append_assoc.
Qed.

(** A message built by appending parts names each part. *)
Lemma contains_between (pre sub post : string) :
  Text.contains sub (pre +:+ sub +:+ post).
Proof. now exists pre, post. Qed.

Create HintDb text.
#[local] Hint Resolve contains_here contains_skip contains_between : text.

(** Finds a part in a message that was appended together. *)
Ltac solve_contains :=
  repeat first [apply contains_refl | apply contains_here | apply contains_skip].

(** ** Engine construction *)

(** Unfolds the monad so that a member function becomes a cascade of
    matches on its state. *)
Ltac unfold_M :=
  unfold LOG_FATAL, log, lock_guard, deref, CHECK in *;
  unfold mbind, M_bind, mret, M_ret, bind, ret, get, modify, fail in *.

Section EngineFacts.
Context {llvm : LLVMApi} {host : HostApi}.

Lemma LazyInitJIT_locked_success (s : State) (m : llvm_Module)
      (tm : TargetMachine) (e : ExecutionEngine) :
  mptr_ (node s) = Some m ->
  selectTarget (jit_builder (module_ (node s))) = Some tm ->
  createDataLayout tm = getDataLayout m ->
  create (jit_builder (module_ (node s))) tm = Some e ->
  LazyInitJIT_locked s = (Done tt, constructed s e).
Proof.
  destruct s as [addr [triple ee mp tmf mo cx] p]. simpl.
  intros -> Htm Hl He. unfold LazyInitJIT_locked, constructed. unfold_M.
  simpl. rewrite Htm. simpl. rewrite bool_decide_eq_true_2 by exact Hl.
  rewrite He. simpl.
  destruct (N.eqb (getGlobalValueAddress e tvm_module_ctx) 0); reflexivity.
Qed.

(** Success of the locked part shows how it was reached. *)
Lemma LazyInitJIT_locked_inv (s s' : State) :
  LazyInitJIT_locked s = (Done tt, s') ->
  exists m tm e,
    mptr_ (node s) = Some m
    /\ selectTarget (jit_builder (module_ (node s))) = Some tm
    /\ createDataLayout tm = getDataLayout m
    /\ create (jit_builder (module_ (node s))) tm = Some e
    /\ s' = constructed s e.
Proof.
  intros H.
  assert (Hc := H). revert Hc.
  unfold LazyInitJIT_locked at 1. unfold_M.
  destruct (mptr_ (node s)) as [m|] eqn:Hm; [|discriminate].
  destruct (selectTarget (jit_builder (module_ (node s)))) as [tm|] eqn:Htm;
    [|discriminate].
  simpl. case_bool_decide as Hl; [|discriminate].
  destruct (create (jit_builder (module_ (node s))) tm) as [e|] eqn:He;
    [|discriminate].
  intros _. exists m, tm, e. repeat split; try assumption.
  rewrite (LazyInitJIT_locked_success s m tm e Hm Htm Hl He) in H.
  now injection H.
Qed.

Lemma LazyInitJIT_unfold (s : State) :
  ee_ (node s) = None -> LazyInitJIT s = LazyInitJIT_locked s.
Proof.
  intros H. unfold LazyInitJIT, LazyInitJIT_guard. unfold_M.
  now rewrite H.
Qed.

Lemma ensure_engine_built (s : State) (e : ExecutionEngine) :
  ee_ (node s) = Some e -> ensure_engine s = (Done tt, s).
Proof. intros H. unfold ensure_engine. unfold_M. now rewrite H. Qed.

Lemma ensure_engine_unbuilt (s : State) :
  ee_ (node s) = None -> ensure_engine s = LazyInitJIT_locked s.
Proof.
  intros H. unfold ensure_engine. unfold_M. rewrite H. simpl.
  now apply LazyInitJIT_unfold.
Qed.

(** After [if (ee_ == nullptr) LazyInitJIT();] has gone through, there is
    an engine. *)
Lemma ensure_engine_ready (s s' : State) :
  ensure_engine s = (Done tt, s') -> exists e, ee_ (node s') = Some e.
Proof.
  destruct (ee_ (node s)) as [e|] eqn:He.
  - rewrite (ensure_engine_built s e He). intros [= <-]. now exists e.
  - rewrite (ensure_engine_unbuilt s He). intros H.
    apply LazyInitJIT_locked_inv in H as (m & tm & e & _ & _ & _ & _ & ->).
    now exists e.
Qed.

End EngineFacts.

Section Construction.
Context {llvm : LLVMApi} {host : HostApi}.

(** C2.  In [LazyInitJIT] the data layout of the target machine that the
    builder selected is compared with the layout recorded in the unit, and
    this happens before the engine is created: when the two differ, the
    call fails fatally, the message holds the string representations of
    both layouts, and up to the failure only the builder was made: no
    engine was created and [ee_] is still null. *)
Theorem LazyInitJIT_layout_mismatch_fatal
        (s : State) (m : llvm_Module) (tm : TargetMachine) :
  ee_ (node s) = None ->
  mptr_ (node s) = Some m ->
  selectTarget (jit_builder (module_ (node s))) = Some tm ->
  createDataLayout tm <> getDataLayout m ->
  exists msg s',
    LazyInitJIT s = (Fail (FatalError msg), s')
    /\ Text.contains (getStringRepresentation (getDataLayout m)) msg
    /\ Text.contains (getStringRepresentation (createDataLayout tm)) msg
    /\ ee_ (node s') = None
    /\ events (proc s')
       = events (proc s) ++ [EvEngineBuilder (negb (is_null (module_ (node s))))].
Proof.
  intros Hee Hm Htm Hne.
  rewrite (LazyInitJIT_unfold s Hee).
  unfold LazyInitJIT_locked. unfold_M.
  rewrite Hm, Htm. simpl.
  rewrite bool_decide_eq_false_2 by exact Hne.
  eexists _, _. split; [reflexivity|].
  unfold layout_mismatch_message. simpl.
  repeat split; try solve_contains.
  exact Hee.
Qed.

(** C9.  When construction goes through (a target was selected, the
    layouts agree, the builder gave an engine), the static initialisers
    are run after the engine was created, and then the address of the
    context slot [tvm_module_ctx] is looked up: when it is not null, the
    address of this module is stored there, as the last action; when it
    is null, nothing is stored and construction has succeeded all the
    same. *)
Theorem LazyInitJIT_context_slot
        (s : State) (m : llvm_Module) (tm : TargetMachine) (e : ExecutionEngine) :
  ee_ (node s) = None ->
  mptr_ (node s) = Some m ->
  selectTarget (jit_builder (module_ (node s))) = Some tm ->
  createDataLayout tm = getDataLayout m ->
  create (jit_builder (module_ (node s))) tm = Some e ->
  exists s',
    LazyInitJIT s = (Done tt, s')
    /\ ee_ (node s') = Some e
    /\ let a := getGlobalValueAddress e tvm_module_ctx in
       let built := [EvEngineBuilder (negb (is_null (module_ (node s))));
                     EvCreateEngine; EvRunStatic false] in
       (a <> 0%N ->
          heap (proc s') = <[a := this s]> (heap (proc s))
          /\ events (proc s') = events (proc s) ++ built ++ [EvStore a (this s)])
       /\ (a = 0%N ->
          heap (proc s') = heap (proc s)
          /\ events (proc s') = events (proc s) ++ built).
Proof.
  intros Hee Hm Htm Hl He.
  exists (constructed s e).
  rewrite (LazyInitJIT_unfold s Hee).
  split; [now apply (LazyInitJIT_locked_success s m tm e)|].
  split; [reflexivity|].
  unfold constructed. simpl. split; intros Ha.
  - apply N.eqb_neq in Ha. rewrite Ha. simpl.
    split; [reflexivity|]. now rewrite <- !app_assoc.
  - rewrite Ha. simpl. split; [reflexivity|]. now rewrite <- !app_assoc.
Qed.

End Construction.

(** ** Symbol resolution and invocation *)

Section SymbolBridge.
Context {llvm : LLVMApi} {host : HostApi}.

Lemma lookup_address_ready (s : State) (e : ExecutionEngine) (fname : string) :
  ee_ (node s) = Some e ->
  lookup_address fname s = (Done (getFunctionAddress e fname), s).
Proof. intros H. unfold lookup_address. unfold_M. now rewrite H. Qed.

(** C3.  Once [if (ee_ == nullptr) LazyInitJIT();] has gone through
    (the engine was there, or was constructed now), there is an engine,
    and [GetFunction] does not fail: for a name whose address the engine
    gives as null it returns the empty [PackedFunc]; for any other name
    it returns the closure that holds the address the engine gave and the
    [sptr_to_self] that was passed. *)
Theorem GetFunction_absent_or_handle
        (s s' : State) (fname : string) (sptr_to_self : N) :
  ensure_engine s = (Done tt, s') ->
  exists e,
    ee_ (node s') = Some e
    /\ (getFunctionAddress e fname = 0%N ->
          GetFunction fname sptr_to_self s = (Done PackedFunc_null, s'))
    /\ (getFunctionAddress e fname <> 0%N ->
          GetFunction fname sptr_to_self s
          = (Done (PackedFunc_closure (getFunctionAddress e fname) sptr_to_self), s')).
Proof.
  intros Hens.
  destruct (ensure_engine_ready s s' Hens) as [e He].
  exists e. split; [exact He|].
  assert (Hrun : GetFunction fname sptr_to_self s
                 = GetFunction_locked fname sptr_to_self s').
  { unfold GetFunction. unfold_M. now rewrite Hens. }
  rewrite Hrun. unfold GetFunction_locked.
  unfold mbind, M_bind, bind. rewrite (lookup_address_ready s' e fname He).
  split; intros Ha.
  - now rewrite Ha.
  - apply N.eqb_neq in Ha. now rewrite Ha.
Qed.

(** C4.  Once [if (ee_ == nullptr) LazyInitJIT();] has gone through,
    [PreCompile] fails on the [CHECK] of line 41 when the address the
    engine gives for the name is null, and only then: for any other
    address it returns, with nothing changed by the lookup. *)
Theorem PreCompile_fatal_iff_unresolved
        (s s' : State) (fname : string) (ctx : TVMContext) :
  ensure_engine s = (Done tt, s') ->
  exists e,
    ee_ (node s') = Some e
    /\ (getFunctionAddress e fname = 0%N <->
          PreCompile fname ctx s
          = (Fail (FatalError ("Check failed: faddr != nullptr "
                                 +:+ "Failed to Precompile function " +:+ fname)), s'))
    /\ (getFunctionAddress e fname <> 0%N <->
          PreCompile fname ctx s = (Done tt, s')).
Proof.
  intros Hens.
  destruct (ensure_engine_ready s s' Hens) as [e He].
  exists e. split; [exact He|].
  assert (Hrun : PreCompile fname ctx s
                 = (if negb (N.eqb (getFunctionAddress e fname) 0)
                    then (Done tt, s')
                    else (Fail (FatalError ("Check failed: faddr != nullptr "
                            +:+ "Failed to Precompile function " +:+ fname)), s'))).
  { unfold PreCompile. unfold_M. rewrite Hens.
    rewrite (lookup_address_ready s' e fname He).
    destruct (N.eqb (getFunctionAddress e fname) 0); reflexivity. }
  rewrite Hrun.
  destruct (N.eqb_spec (getFunctionAddress e fname) 0) as [Ha|Ha]; simpl.
  - split; split; try congruence; intros; try reflexivity; discriminate.
  - split; split; try congruence; intros; try reflexivity; discriminate.
Qed.

(** C5.  Calling a handle that [GetFunction] returned, which is a
    [PackedFunc_closure], jumps to the captured address.  When the
    function there returns a status other than zero, the call fails, and
    the message ends with the last error the host runtime has recorded
    when the function came back; when the status is zero the call
    returns. *)
Theorem PackedFunc_call_status
        (faddr sptr_to_self : N) (args : TVMArgs) (p p' : Process) (status : Z) :
  call_packed faddr args (log_event (EvInvoke faddr) p) = (status, p') ->
  (status <> 0%Z ->
     exists msg,
       PackedFunc_call (PackedFunc_closure faddr sptr_to_self) args p
       = (Fail (FatalError msg), p')
       /\ Text.contains (last_error p') msg
       /\ msg = "Check failed: ret == 0 " +:+ last_error p')
  /\ (status = 0%Z ->
        PackedFunc_call (PackedFunc_closure faddr sptr_to_self) args p
        = (Done tt, p')).
Proof.
  intros Hcall. simpl. unfold closure_body. rewrite Hcall. unfold_M.
  split; intros Hs.
  - apply Z.eqb_neq in Hs. rewrite Hs.
    eexists. split; [reflexivity|]. split; [solve_contains | reflexivity].
  - now rewrite Hs.
Qed.

End SymbolBridge.

(** ** Emission *)

Section Emitter.
Context {llvm : LLVMApi} {host : HostApi}.

Lemma written_contents (file_name data : string) (s : State) :
  files (proc (written file_name data s)) !! file_name = Some data.
Proof.
  unfold written, opened, on_proc, append_file, set_file. simpl.
  rewrite lookup_insert_eq. simpl. now rewrite lookup_insert_eq.
Qed.

Lemma SaveToFile_opened (s : State) (file_name format : string) :
  ec_value (open_status (proc s) file_name) = 0%Z ->
  SaveToFile file_name format s
  = (let fmt := GetFileFormat file_name format in
     if bool_decide (fmt = "o") || bool_decide (fmt = "obj") then
       match tm_ (node s) with
       | None => (Fail (FatalError "Check failed: tm_ "), opened file_name s)
       | Some tm =>
           if addPassesToEmitFile tm
           then (Fail (FatalError
                   ("Check failed: tm_->addPassesToEmitFile( pass, dest, "
                    +:+ "llvm::TargetMachine::CGFT_ObjectFile) == 0 "
                    +:+ "Cannot emit target CGFT_ObjectFile")), opened file_name s)
           else match mptr_ (node s) with
                | None => (Fail NullDereference, opened file_name s)
                | Some m => (Done tt, written file_name (emitObjectFile tm m) s)
                end
       end
     else if bool_decide (fmt = "ll") then
       match mptr_ (node s) with
       | None => (Fail NullDereference, opened file_name s)
       | Some m => (Done tt, written file_name (print m) s)
       end
     else if bool_decide (fmt = "bc") then
       match mptr_ (node s) with
       | None => (Fail NullDereference, opened file_name s)
       | Some m => (Done tt, written file_name (WriteBitcode m) s)
       end
     else (Fail (FatalError (unknown_format_message file_name format)),
           opened file_name s)).
Proof.
  intros Hopen. unfold SaveToFile, open_truncate, write. unfold_M.
  rewrite Hopen. simpl.
  destruct (bool_decide (GetFileFormat file_name format = "o")
            || bool_decide (GetFileFormat file_name format = "obj")).
  - destruct (tm_ (node s)) as [tm|]; simpl; [|reflexivity].
    destruct (addPassesToEmitFile tm); simpl; [reflexivity|].
    destruct (mptr_ (node s)); reflexivity.
  - destruct (bool_decide (GetFileFormat file_name format = "ll")).
    + destruct (mptr_ (node s)); reflexivity.
    + destruct (bool_decide (GetFileFormat file_name format = "bc")).
      * destruct (mptr_ (node s)); reflexivity.
      * reflexivity.
Qed.

(** A destination that cannot be opened is fatal before the format is
    looked at. *)
Lemma SaveToFile_open_failure (s : State) (file_name format : string) :
  ec_value (open_status (proc s) file_name) <> 0%Z ->
  SaveToFile file_name format s
  = (Fail (FatalError ("Check failed: ecode.value() == 0 "
                         +:+ "Cannot open file: " +:+ file_name +:+ " "
                         +:+ ec_message (open_status (proc s) file_name))), s).
Proof.
  intros Hopen. apply Z.eqb_neq in Hopen.
  unfold SaveToFile, open_truncate. unfold_M. rewrite Hopen. simpl.
  now destruct s.
Qed.

(** C6, amended.  When the destination can be opened, [SaveToFile] knows
    the resolved formats [o] and [obj] (object code, for which [tm_] must
    be set), [ll] (the printed unit) and [bc] (bitcode), and no other: any
    other resolved format is fatal, and the message holds the path and the
    [format] argument as it was passed. *)
Theorem SaveToFile_formats (s : State) (file_name format : string) :
  ec_value (open_status (proc s) file_name) = 0%Z ->
  let fmt := GetFileFormat file_name format in
  (fmt = "o" \/ fmt = "obj" ->
     (tm_ (node s) = None ->
        exists msg,
          SaveToFile file_name format s
          = (Fail (FatalError msg), opened file_name s))
     /\ (forall tm m,
           tm_ (node s) = Some tm ->
           addPassesToEmitFile tm = false ->
           mptr_ (node s) = Some m ->
           SaveToFile file_name format s
           = (Done tt, written file_name (emitObjectFile tm m) s)))
  /\ (fmt = "ll" ->
        forall m, mptr_ (node s) = Some m ->
                  SaveToFile file_name format s
                  = (Done tt, written file_name (print m) s))
  /\ (fmt = "bc" ->
        forall m, mptr_ (node s) = Some m ->
                  SaveToFile file_name format s
                  = (Done tt, written file_name (WriteBitcode m) s))
  /\ (fmt <> "o" -> fmt <> "obj" -> fmt <> "ll" -> fmt <> "bc" ->
        exists msg,
          SaveToFile file_name format s
          = (Fail (FatalError msg), opened file_name s)
          /\ Text.contains file_name msg
          /\ Text.contains format msg).
Proof.
  intros Hopen fmt.
  rewrite (SaveToFile_opened s file_name format Hopen).
  fold fmt. cbv zeta.
  split; [intros Hobj; split | repeat split].
  - intros Htm. rewrite Htm.
    destruct Hobj as [-> | ->]; simpl; eexists; reflexivity.
  - intros tm m -> -> ->.
    destruct Hobj as [-> | ->]; reflexivity.
  - intros -> m ->. reflexivity.
  - intros -> m ->. reflexivity.
  - intros Ho Hobj Hll Hbc.
    rewrite !bool_decide_eq_false_2 by assumption. simpl.
    eexists. split; [reflexivity|].
    unfold unknown_format_message. split; solve_contains.
Qed.

(** C10.  [GetSource] does not look at its argument: with a unit to
    observe, it returns the printed unit whatever the format is, and
    leaves the module as it was. *)
Theorem GetSource_ignores_format (s : State) (m : llvm_Module) (f1 f2 : string) :
  mptr_ (node s) = Some m ->
  GetSource f1 s = (Done (print m), s)
  /\ GetSource f2 s = GetSource f1 s.
Proof.
  intros Hm. unfold GetSource. unfold_M. now rewrite Hm.
Qed.

End Emitter.

(** ** Initialisation and destruction *)

Section Lifecycle.
Context {llvm : LLVMApi} {host : HostApi}.

Lemma fold_AddFunction_functions (funcs : list LoweredFunc) (cg : CodeGenLLVM) :
  cg_functions (fold_left cg_AddFunction funcs cg) = cg_functions cg ++ funcs.
Proof.
  revert cg. induction funcs as [|f funcs IH]; intros cg; simpl.
  - now rewrite app_nil_r.
  - rewrite IH. simpl. now rewrite <- app_assoc.
Qed.

Lemma fold_AddFunction_main (funcs : list LoweredFunc) (cg : CodeGenLLVM) :
  cg_main (fold_left cg_AddFunction funcs cg) = cg_main cg.
Proof.
  revert cg. induction funcs as [|f funcs IH]; intros cg; simpl;
    [reflexivity | now rewrite IH].
Qed.

(** C7.  [Init] with no definition fails on the [CHECK_NE] of line 102,
    before a unit is made.  [Init] with the definitions [f0 :: rest]
    returns, and the unit it stores in [module_] and [mptr_] is the one
    the code generator finished after it was handed every definition, in
    order, and the name of [f0] as the main function. *)
Theorem Init_adds_all_functions
        (s : State) (f0 : LoweredFunc) (rest : list LoweredFunc) (target : string) :
  (exists s',
     Init [] target s = (Fail (FatalError "Check failed: funcs.size() != 0U "), s')
     /\ module_ (node s') = module_ (node s)
     /\ mptr_ (node s') = mptr_ (node s))
  /\ (exists cg s',
        Init (f0 :: rest) target s = (Done tt, s')
        /\ module_ (node s') = Some (cg_Finish cg)
        /\ mptr_ (node s') = Some (cg_Finish cg)
        /\ cg_functions cg = f0 :: rest
        /\ length (cg_functions cg) = S (length rest)
        /\ cg_main cg = Some (name f0)).
Proof.
  split.
  - eexists. unfold Init. unfold_M. simpl. repeat split.
  - exists (cg_AddMainFunction
              (fold_left cg_AddFunction (f0 :: rest)
                         (cg_Init (name f0) target mkLLVMContext))
              (name f0)).
    eexists. unfold Init. unfold_M. simpl.
    split; [reflexivity|]. repeat split.
    + now rewrite fold_AddFunction_functions.
    + rewrite fold_AddFunction_functions. reflexivity.
Qed.

(** C8.  The destructor of a module whose engine was constructed runs the
    static destructors of the unit and then deletes the engine, each once
    and in this order. *)
Theorem destructor_runs_static_destructors_first
        (s : State) (e : ExecutionEngine) :
  ee_ (node s) = Some e ->
  exists s' done,
    destroy s = (Done tt, s')
    /\ events (proc s') = events (proc s) ++ done
    /\ happens_before (EvRunStatic true) EvDeleteEngine done
    /\ count_event (EvRunStatic true) done = 1
    /\ count_event EvDeleteEngine done = 1
    /\ last done = Some EvDeleteEngine.
Proof.
  intros He. unfold destroy. unfold_M. rewrite He.
  destruct (module_ (node s)) as [m|]; simpl.
  - exists (on_proc (log_event EvDeleteEngine)
             (on_proc (log_event (EvRunStatic true))
                (set_module None (on_proc (log_event EvDeleteModule) s)))),
           [EvDeleteModule; EvRunStatic true; EvDeleteEngine].
    split; [reflexivity|]. simpl. rewrite <- !app_assoc.
    split; [reflexivity|].
    split; [now exists [EvDeleteModule], [], []|].
    repeat split.
  - exists (on_proc (log_event EvDeleteEngine)
             (on_proc (log_event (EvRunStatic true)) (set_module None s))),
           [EvRunStatic true; EvDeleteEngine].
    split; [reflexivity|]. simpl. rewrite <- !app_assoc.
    split; [reflexivity|].
    split; [now exists [], [], []|].
    repeat split.
Qed.

(** Without an engine the destructor touches no engine. *)
Lemma destructor_without_engine (s : State) :
  ee_ (node s) = None ->
  exists s',
    destroy s = (Done tt, s')
    /\ events (proc s')
       = events (proc s)
           ++ (if is_null (module_ (node s)) then [] else [EvDeleteModule]).
Proof.
  intros He. unfold destroy. unfold_M. rewrite He.
  destruct (module_ (node s)) as [m|]; simpl; eexists;
    (split; [reflexivity|]); simpl; [reflexivity | now rewrite app_nil_r].
Qed.

End Lifecycle.

(** ** Several threads *)

Section ThreadFacts.
Context {llvm : LLVMApi} {host : HostApi}.

Lemma constructions_log (e : Event) (s : State) :
  constructions (on_proc (log_event e) s)
  = constructions s + (if is_builder_event e then 1 else 0).
Proof.
  unfold constructions. simpl. rewrite filter_app, length_app.
  destruct e; reflexivity.
Qed.

Lemma constructions_store (a v : N) (s : State) :
  constructions (on_proc (store_cell a v) s) = constructions s.
Proof.
  unfold constructions. simpl. rewrite filter_app, length_app. simpl. lia.
Qed.

(** Every run of the locked part of [LazyInitJIT] that gets past its
    first line makes one more engine builder, whatever happens next. *)
Lemma LazyInitJIT_locked_counts (s : State) (m : llvm_Module) :
  mptr_ (node s) = Some m ->
  constructions (snd (LazyInitJIT_locked s)) = S (constructions s).
Proof.
  intros Hm. unfold LazyInitJIT_locked. unfold_M. rewrite Hm. simpl.
  set (s1 := on_proc _ (set_module None s)).
  assert (H1 : constructions s1 = S (constructions s)).
  { subst s1. rewrite constructions_log. simpl. unfold constructions. simpl. lia. }
  destruct (selectTarget _) as [tm|]; simpl; [|exact H1].
  case_bool_decide; simpl; [|exact H1].
  set (s2 := set_ee _ _).
  assert (H2 : constructions s2 = S (constructions s)).
  { subst s2. unfold set_ee. simpl.
    change (constructions (on_proc (log_event EvCreateEngine) s1)
            = S (constructions s)).
    rewrite constructions_log. simpl. lia. }
  destruct (create _ tm) as [e|] eqn:He; simpl; [|exact H2].
  destruct (N.eqb _ 0%N); simpl.
  - rewrite constructions_log. simpl. lia.
  - rewrite constructions_store, constructions_log. simpl. lia.
Qed.

Lemma run_cons (tid : nat) (schedule : list nat) (c : Config) :
  run (tid :: schedule) c = run schedule (step tid c).
Proof. reflexivity. Qed.

Lemma guard_passes (s : State) :
  ee_ (node s) = None -> LazyInitJIT_guard s = (Done tt, s).
Proof. intros H. unfold LazyInitJIT_guard. unfold_M. now rewrite H. Qed.

Lemma guard_fails (s : State) (e : ExecutionEngine) :
  ee_ (node s) = Some e ->
  LazyInitJIT_guard s = (Fail (FatalError "Check failed: ee_ == nullptr "), s).
Proof. intros H. unfold LazyInitJIT_guard. unfold_M. now rewrite H. Qed.

(** Makes the next step of the schedule. *)
Ltac one_step :=
  rewrite run_cons; unfold step, acquire, move;
  cbn -[run LazyInitJIT_locked LazyInitJIT_guard GetFunction_locked constructions].

(** One thread alone goes through the steps to what [GetFunction] gives:
    the steps are the function, cut into pieces. *)
Lemma run_alone (s : State) (fname : string) (sptr : N) :
  let c := run [0; 0; 0; 0; 0; 0] (start s [(fname, sptr)]) in
  result_of 0 c = Some (fst (GetFunction fname sptr s))
  /\ shared c = snd (GetFunction fname sptr s)
  /\ mutex_ c = None.
Proof.
  unfold start. cbn [map].
  unfold GetFunction, lock_guard, mbind, M_bind, bind.
  destruct (ee_ (node s)) as [e|] eqn:Hee.
  - rewrite (ensure_engine_built s e Hee).
    one_step. rewrite Hee. one_step. one_step.
    destruct (GetFunction_locked fname sptr s) as [r s'].
    do 3 one_step. now cbn.
  - rewrite (ensure_engine_unbuilt s Hee).
    one_step. rewrite Hee. one_step. rewrite (guard_passes s Hee).
    one_step. one_step.
    destruct (LazyInitJIT_locked s) as [[[]|f] s1].
    + one_step. one_step.
      destruct (GetFunction_locked fname sptr s1) as [r s'].
      now cbn.
    + do 2 one_step. now cbn.
Qed.

(** Calls that follow each other construct the engine once: the call that
    finds no engine constructs it, and no later [GetFunction] or
    [PreCompile] changes the module. *)
Lemma sequential_calls_construct_once
      (s s' : State) (fname : string) (sptr : N) (r : PackedFunc) :
  ee_ (node s) = None ->
  GetFunction fname sptr s = (Done r, s') ->
  constructions s' = S (constructions s)
  /\ (forall fname' sptr', snd (GetFunction fname' sptr' s') = s')
  /\ (forall fname' ctx, snd (PreCompile fname' ctx s') = s').
Proof.
  intros Hee Hget.
  assert (Hens : ensure_engine s = (Done tt, s')).
  { revert Hget. unfold GetFunction, GetFunction_locked, lookup_address.
    unfold_M. destruct (ensure_engine s) as [[[]|f] s1]; [|discriminate].
    destruct (ee_ (node s1)); [|discriminate].
    simpl. destruct (N.eqb _ 0%N); now intros [= _ ->]. }
  destruct (ensure_engine_ready s s' Hens) as [e He].
  rewrite (ensure_engine_unbuilt s Hee) in Hens.
  destruct (LazyInitJIT_locked_inv s s' Hens) as (m & _ & _ & Hm & _).
  split; [|split].
  - now rewrite <- (LazyInitJIT_locked_counts s m Hm), Hens.
  - intros fname' sptr'. unfold GetFunction, GetFunction_locked. unfold_M.
    rewrite (ensure_engine_built s' e He), (lookup_address_ready s' e fname' He).
    now destruct (N.eqb _ 0%N).
  - intros fname' ctx. unfold PreCompile. unfold_M.
    rewrite (ensure_engine_built s' e He), (lookup_address_ready s' e fname' He).
    now destruct (N.eqb _ 0%N).
Qed.

(** C1, which the code does not meet.  Two threads call [GetFunction] on a
    module that has no engine yet and whose construction would succeed.
    Both read [ee_] as null at line 48 before either holds the lock.
    Under one schedule both also pass the [CHECK] of line 116: the second
    then waits for the lock and runs the whole construction again, so the
    construction counter goes up by two.  Under another schedule the
    first thread has finished construction when the second comes to
    line 116: that [CHECK] fails and the second caller gets a fatal error
    instead of a function or an empty result. *)
Theorem GetFunction_unsynchronised_guard
        (s s1 : State) (n0 n1 : string) (p0 p1 : N) :
  ee_ (node s) = None ->
  LazyInitJIT_locked s = (Done tt, s1) ->
  let c0 := start s [(n0, p0); (n1, p1)] in
  constructions (shared (run [0; 1; 0; 1; 0; 0; 1; 1] c0)) = constructions s + 2
  /\ constructions (shared (run [0; 1; 0; 0; 0; 1] c0)) = constructions s + 1
  /\ result_of 1 (run [0; 1; 0; 0; 0; 1] c0)
     = Some (Fail (FatalError "Check failed: ee_ == nullptr ")).
Proof.
  intros Hee Hbody c0.
  destruct (LazyInitJIT_locked_inv s s1 Hbody)
    as (m & tm & e & Hm & _ & _ & _ & Hs1).
  assert (Hee1 : ee_ (node s1) = Some e) by now rewrite Hs1.
  assert (Hm1 : mptr_ (node s1) = Some m) by now rewrite Hs1.
  assert (Hc1 : constructions s1 = S (constructions s)).
  { now rewrite <- (LazyInitJIT_locked_counts s m Hm), Hbody. }
  subst c0. unfold start. cbn [map].
  split; [|split].
  - one_step. rewrite Hee. one_step. rewrite Hee.
    one_step. rewrite (guard_passes s Hee).
    one_step. rewrite (guard_passes s Hee).
    one_step. one_step. rewrite Hbody.
    one_step. one_step.
    pose proof (LazyInitJIT_locked_counts s1 m Hm1) as H2.
    destruct (LazyInitJIT_locked s1) as [[[]|f] s2]; cbn in *; lia.
  - one_step. rewrite Hee. one_step. rewrite Hee.
    one_step. rewrite (guard_passes s Hee).
    one_step. one_step. rewrite Hbody.
    one_step. rewrite (guard_fails s1 e Hee1). cbn. lia.
  - one_step. rewrite Hee. one_step. rewrite Hee.
    one_step. rewrite (guard_passes s Hee).
    one_step. one_step. rewrite Hbody.
    one_step. rewrite (guard_fails s1 e Hee1). now cbn.
Qed.

End ThreadFacts.

(** * Further facts *)

(** ** More on engine construction *)

Section ConstructionOutcomes.
Context {llvm : LLVMApi} {host : HostApi}.

Lemma LazyInitJIT_guarded (s : State) (e : ExecutionEngine) :
  ee_ (node s) = Some e ->
  LazyInitJIT s = (Fail (FatalError "Check failed: ee_ == nullptr "), s).
Proof.
  intros H. unfold LazyInitJIT, LazyInitJIT_guard. unfold_M. now rewrite H.
Qed.

Lemma LazyInitJIT_done_inv (s s' : State) :
  LazyInitJIT s = (Done tt, s') ->
  ee_ (node s) = None /\ LazyInitJIT_locked s = (Done tt, s').
Proof.
  destruct (ee_ (node s)) as [e|] eqn:He.
  - rewrite (LazyInitJIT_guarded s e He). discriminate.
  - now rewrite (LazyInitJIT_unfold s He).
Qed.

(** X1.  When the builder gives no engine (line 129 returns null),
    [LazyInitJIT] fails on the [CHECK] of line 130.  The message names the
    target triple recorded in the unit.  No static initialiser was run and
    nothing was stored; [ee_] is null and the unit has left [module_]. *)
Theorem LazyInitJIT_create_failure_fatal
        (s : State) (m : llvm_Module) (tm : TargetMachine) :
  ee_ (node s) = None ->
  mptr_ (node s) = Some m ->
  selectTarget (jit_builder (module_ (node s))) = Some tm ->
  createDataLayout tm = getDataLayout m ->
  create (jit_builder (module_ (node s))) tm = None ->
  exists msg s',
    LazyInitJIT s = (Fail (FatalError msg), s')
    /\ msg = "Check failed: ee_ != nullptr Failed to initialize git engine for "
               +:+ getTargetTriple m
    /\ Text.contains (getTargetTriple m) msg
    /\ ee_ (node s') = None
    /\ module_ (node s') = None
    /\ heap (proc s') = heap (proc s)
    /\ events (proc s')
       = events (proc s)
           ++ [EvEngineBuilder (negb (is_null (module_ (node s)))); EvCreateEngine].
Proof.
  intros Hee Hm Htm Hl He.
  rewrite (LazyInitJIT_unfold s Hee).
  unfold LazyInitJIT_locked. unfold_M.
  rewrite Hm, Htm. simpl.
  rewrite bool_decide_eq_true_2 by exact Hl.
  rewrite He. simpl.
  eexists _, _. split; [reflexivity|].
  repeat split; try solve_contains.
  all: simpl; try rewrite <- !app_assoc; try reflexivity.
Qed.


(** X3.  A construction that succeeds keeps what the emitter reads: [mptr_]
    still observes the unit, [tm_] and the files are as before, and
    [GetSource] gives after it what it gave before it; the unit itself is
    no longer owned by [module_]. *)
Theorem construction_keeps_observation (s s' : State) :
  LazyInitJIT s = (Done tt, s') ->
  module_ (node s') = None
  /\ mptr_ (node s') = mptr_ (node s)
  /\ tm_ (node s') = tm_ (node s)
  /\ target_triple_ (node s') = target_triple_ (node s)
  /\ files (proc s') = files (proc s)
  /\ forall format, fst (GetSource format s') = fst (GetSource format s).
Proof.
  intros Hrun. apply LazyInitJIT_done_inv in Hrun as [_ Hrun].
  apply LazyInitJIT_locked_inv in Hrun as (m & tm & e & Hm & _ & _ & _ & ->).
  assert (Hfiles : files (proc (constructed s e)) = files (proc s)).
  { unfold constructed. simpl. now destruct (N.eqb _ 0%N). }
  repeat split; try reflexivity; try exact Hfiles.
  intros format. unfold GetSource. unfold_M. simpl. now rewrite Hm.
Qed.

End ConstructionOutcomes.

(** ** More on symbol resolution *)

Section BridgeOutcomes.
Context {llvm : LLVMApi} {host : HostApi}.

Lemma GetFunction_ready (s : State) (e : ExecutionEngine) (fname : string) (sptr : N) :
  ee_ (node s) = Some e ->
  GetFunction fname sptr s
  = (Done (if N.eqb (getFunctionAddress e fname) 0
           then PackedFunc_null
           else PackedFunc_closure (getFunctionAddress e fname) sptr), s).
Proof.
  intros He. unfold GetFunction, GetFunction_locked. unfold_M.
  rewrite (ensure_engine_built s e He), (lookup_address_ready s e fname He).
  now destruct (N.eqb _ 0%N).
Qed.

Lemma PreCompile_ready (s : State) (e : ExecutionEngine) (fname : string)
      (ctx : TVMContext) :
  ee_ (node s) = Some e ->
  PreCompile fname ctx s
  = (if N.eqb (getFunctionAddress e fname) 0
     then Fail (FatalError (precompile_message fname))
     else Done tt, s).
Proof.
  intros He. unfold PreCompile. unfold_M.
  rewrite (ensure_engine_built s e He), (lookup_address_ready s e fname He).
  now destruct (N.eqb _ 0%N).
Qed.

(** Both functions begin with the statement of lines 37 and 48 and go on
    from the state it leaves. *)
Lemma GetFunction_after_ensure (s s' : State) (fname : string) (sptr : N) :
  ensure_engine s = (Done tt, s') ->
  GetFunction fname sptr s = GetFunction_locked fname sptr s'.
Proof. intros H. unfold GetFunction. unfold_M. now rewrite H. Qed.

Lemma PreCompile_after_ensure (s s' : State) (e : ExecutionEngine)
      (fname : string) (ctx : TVMContext) :
  ensure_engine s = (Done tt, s') ->
  ee_ (node s') = Some e ->
  PreCompile fname ctx s = PreCompile fname ctx s'.
Proof.
  intros H He. rewrite (PreCompile_ready s' e fname ctx He).
  unfold PreCompile. unfold_M. rewrite H.
  rewrite (lookup_address_ready s' e fname He).
  now destruct (N.eqb _ 0%N).
Qed.

Lemma GetFunction_locked_ready (s : State) (e : ExecutionEngine)
      (fname : string) (sptr : N) :
  ee_ (node s) = Some e ->
  GetFunction_locked fname sptr s = GetFunction fname sptr s.
Proof.
  intros He. symmetry. apply GetFunction_after_ensure.
  now apply (ensure_engine_built s e).
Qed.

Lemma lookup_after_failed_ensure (s s' : State) (f : Failure)
      (fname : string) (sptr : N) (ctx : TVMContext) :
  ensure_engine s = (Fail f, s') ->
  GetFunction fname sptr s = (Fail f, s')
  /\ PreCompile fname ctx s = (Fail f, s').
Proof.
  intros H. unfold GetFunction, PreCompile. unfold_M. now rewrite H.
Qed.

(** The statement of lines 37 and 48, by cases. *)
Lemma ensure_engine_cases (s : State) :
  (exists e, ee_ (node s) = Some e /\ ensure_engine s = (Done tt, s))
  \/ (ee_ (node s) = None /\ ensure_engine s = LazyInitJIT s).
Proof.
  destruct (ee_ (node s)) as [e|] eqn:He.
  - left. exists e. split; [reflexivity | now apply (ensure_engine_built s e)].
  - right. split; [reflexivity|].
    now rewrite (ensure_engine_unbuilt s He), (LazyInitJIT_unfold s He).
Qed.

(** X4.  [GetFunction] fails only where engine construction fails: the
    lookup itself never fails.  It ends in a failure exactly when there was
    no engine and [LazyInitJIT] ended in that failure, and it then leaves
    the state [LazyInitJIT] left. *)
Theorem GetFunction_fails_only_in_construction
        (s s' : State) (fname : string) (sptr : N) (f : Failure) :
  GetFunction fname sptr s = (Fail f, s')
  <-> ee_ (node s) = None /\ LazyInitJIT s = (Fail f, s').
Proof.
  destruct (ensure_engine_cases s) as [(e & He & Hens) | (He & Hens)].
  - rewrite (GetFunction_ready s e fname sptr He).
    split; [discriminate | intros [Hnone _]; congruence].
  - destruct (LazyInitJIT s) as [[[]|f0] s1] eqn:Hinit.
    + destruct (ensure_engine_ready s s1 Hens) as [e1 He1].
      rewrite (GetFunction_after_ensure s s1 fname sptr Hens).
      rewrite (GetFunction_locked_ready s1 e1 fname sptr He1).
      rewrite (GetFunction_ready s1 e1 fname sptr He1).
      split; [discriminate | intros [_ H]; discriminate].
    + destruct (lookup_after_failed_ensure s s1 f0 fname sptr
                  (mkTVMContext 0 0) Hens) as [-> _].
      split; [intros [= <- <-]; now split | now intros [_ [= <- <-]]].
Qed.

(** X5.  When [PreCompile] of a name has returned, [GetFunction] of that
    name gives a closure over a non-null address, on the state [PreCompile]
    left and without changing it (no second construction); called in place
    of [PreCompile] it would have given that closure and left that
    state. *)
Theorem PreCompile_then_GetFunction
        (s s' : State) (fname : string) (ctx : TVMContext) :
  PreCompile fname ctx s = (Done tt, s') ->
  exists faddr,
    faddr <> 0%N
    /\ forall sptr,
         GetFunction fname sptr s' = (Done (PackedFunc_closure faddr sptr), s')
         /\ GetFunction fname sptr s = (Done (PackedFunc_closure faddr sptr), s').
Proof.
  intros Hpre.
  destruct (ensure_engine s) as [[[]|f0] s1] eqn:Hens.
  - destruct (ensure_engine_ready s s1 Hens) as [e He].
    rewrite (PreCompile_after_ensure s s1 e fname ctx Hens He) in Hpre.
    rewrite (PreCompile_ready s1 e fname ctx He) in Hpre.
    destruct (N.eqb_spec (getFunctionAddress e fname) 0) as [Ha|Ha];
      [discriminate|].
    injection Hpre as <-.
    exists (getFunctionAddress e fname). split; [exact Ha|].
    intros sptr.
    rewrite (GetFunction_after_ensure s s1 fname sptr Hens).
    rewrite (GetFunction_locked_ready s1 e fname sptr He).
    rewrite (GetFunction_ready s1 e fname sptr He).
    apply N.eqb_neq in Ha. rewrite Ha. now split.
  - destruct (lookup_after_failed_ensure s s1 f0 fname 0%N ctx Hens) as [_ H].
    rewrite H in Hpre. discriminate.
Qed.

(** X6.  The engine is constructed at most once by calls that follow each
    other.  When [GetFunction] has returned, the same call on the state it
    left returns the same result, and no later [GetFunction] or
    [PreCompile], of any name, changes that state; the call itself made one
    engine builder if there was no engine and none if there was. *)
Theorem GetFunction_repeatable
        (s s' : State) (fname : string) (sptr : N) (r : PackedFunc) :
  GetFunction fname sptr s = (Done r, s') ->
  GetFunction fname sptr s' = (Done r, s')
  /\ (forall fname' sptr', snd (GetFunction fname' sptr' s') = s')
  /\ (forall fname' ctx, snd (PreCompile fname' ctx s') = s')
  /\ constructions s'
     = constructions s + (if is_null (ee_ (node s)) then 1 else 0).
Proof.
  intros Hget.
  destruct (ensure_engine s) as [[[]|f0] s1] eqn:Hens.
  - destruct (ensure_engine_ready s s1 Hens) as [e He].
    rewrite (GetFunction_after_ensure s s1 fname sptr Hens) in Hget.
    rewrite (GetFunction_locked_ready s1 e fname sptr He) in Hget.
    assert (Hs : s1 = s').
    { rewrite (GetFunction_ready s1 e fname sptr He) in Hget. congruence. }
    subst s1. repeat split.
    + exact Hget.
    + intros fname' sptr'. now rewrite (GetFunction_ready s' e fname' sptr' He).
    + intros fname' ctx. now rewrite (PreCompile_ready s' e fname' ctx He).
    + destruct (ee_ (node s)) as [e0|] eqn:He0; simpl.
      * rewrite (ensure_engine_built s e0 He0) in Hens.
        injection Hens as <-. lia.
      * rewrite (ensure_engine_unbuilt s He0) in Hens.
        destruct (LazyInitJIT_locked_inv s s' Hens) as (m & _ & _ & Hm & _).
        pose proof (LazyInitJIT_locked_counts s m Hm) as Hc.
        rewrite Hens in Hc. simpl in Hc. lia.
  - destruct (lookup_after_failed_ensure s s1 f0 fname sptr
                (mkTVMContext 0 0) Hens) as [H _].
    rewrite H in Hget. discriminate.
Qed.

(** X7.  [PreCompile] and [GetFunction] of one name do the same to the
    module, and agree on the name: [PreCompile] returns exactly when
    [GetFunction] gives a closure; where [GetFunction] gives the empty
    function [PreCompile] fails on its [CHECK]; where [GetFunction] fails
    [PreCompile] fails in the same way. *)
Theorem PreCompile_agrees_with_GetFunction
        (s : State) (fname : string) (sptr : N) (ctx : TVMContext) :
  snd (PreCompile fname ctx s) = snd (GetFunction fname sptr s)
  /\ (fst (PreCompile fname ctx s) = Done tt
      <-> exists faddr,
            faddr <> 0%N
            /\ fst (GetFunction fname sptr s) = Done (PackedFunc_closure faddr sptr))
  /\ (fst (GetFunction fname sptr s) = Done PackedFunc_null ->
      fst (PreCompile fname ctx s) = Fail (FatalError (precompile_message fname)))
  /\ (forall f, fst (GetFunction fname sptr s) = Fail f ->
                fst (PreCompile fname ctx s) = Fail f).
Proof.
  destruct (ensure_engine s) as [[[]|f0] s1] eqn:Hens.
  - destruct (ensure_engine_ready s s1 Hens) as [e He].
    rewrite (PreCompile_after_ensure s s1 e fname ctx Hens He).
    rewrite (PreCompile_ready s1 e fname ctx He).
    rewrite (GetFunction_after_ensure s s1 fname sptr Hens).
    rewrite (GetFunction_locked_ready s1 e fname sptr He).
    rewrite (GetFunction_ready s1 e fname sptr He). simpl.
    destruct (N.eqb_spec (getFunctionAddress e fname) 0) as [Ha|Ha].
    + repeat split; try discriminate.
      intros (faddr & _ & H). discriminate.
    + repeat split; try discriminate.
      intros _. now exists (getFunctionAddress e fname).
  - destruct (lookup_after_failed_ensure s s1 f0 fname sptr ctx Hens) as [-> ->].
    simpl. repeat split; try discriminate.
    + intros (faddr & _ & H). discriminate.
    + now intros f [= ->].
Qed.

(** A lookup that fails has found no engine and failed in the locked part
    of [LazyInitJIT]. *)
Lemma failed_ensure_inv (s s' : State) (f : Failure) :
  ensure_engine s = (Fail f, s') ->
  ee_ (node s) = None /\ LazyInitJIT_locked s = (Fail f, s').
Proof.
  destruct (ee_ (node s)) as [e|] eqn:He.
  - rewrite (ensure_engine_built s e He). discriminate.
  - now rewrite (ensure_engine_unbuilt s He).
Qed.

Lemma locked_failure_is_not_the_guard (s s' : State) :
  LazyInitJIT_locked s <> (Fail (FatalError "Check failed: ee_ == nullptr "), s').
Proof.
  unfold LazyInitJIT_locked. unfold_M.
  destruct (mptr_ (node s)) as [m|]; simpl; [|discriminate].
  destruct (selectTarget _) as [tm|]; simpl; [|discriminate].
  case_bool_decide as Hl; simpl.
  - destruct (create _ tm) as [e|]; simpl.
    + destruct (N.eqb _ 0%N); discriminate.
    + intros Hmsg. apply (f_equal fst) in Hmsg. vm_compute in Hmsg. discriminate Hmsg.
  - intros Hmsg. apply (f_equal fst) in Hmsg. vm_compute in Hmsg. discriminate Hmsg.
Qed.

(** X19.  In calls that follow each other the [CHECK] of line 116 never
    fails: neither [GetFunction] nor [PreCompile] can end in
    [Check failed: ee_ == nullptr], whatever the state they start from.
    Only another thread can make it fail. *)
Theorem guard_never_fails_in_sequence
        (s s' : State) (fname : string) (sptr : N) (ctx : TVMContext) :
  GetFunction fname sptr s
  <> (Fail (FatalError "Check failed: ee_ == nullptr "), s')
  /\ PreCompile fname ctx s
     <> (Fail (FatalError "Check failed: ee_ == nullptr "), s').
Proof.
  destruct (ensure_engine s) as [[[]|f0] s1] eqn:Hens.
  - destruct (ensure_engine_ready s s1 Hens) as [e He].
    rewrite (PreCompile_after_ensure s s1 e fname ctx Hens He).
    rewrite (PreCompile_ready s1 e fname ctx He).
    rewrite (GetFunction_after_ensure s s1 fname sptr Hens).
    rewrite (GetFunction_locked_ready s1 e fname sptr He).
    rewrite (GetFunction_ready s1 e fname sptr He).
    split; [discriminate|].
    destruct (N.eqb _ 0%N); [|discriminate].
    intros Hmsg. apply (f_equal fst) in Hmsg. vm_compute in Hmsg. discriminate Hmsg.
  - destruct (lookup_after_failed_ensure s s1 f0 fname sptr ctx Hens) as [-> ->].
    apply failed_ensure_inv in Hens as [_ Hlocked].
    split; intros [= -> ->]; now apply (locked_failure_is_not_the_guard s s').
Qed.

(** X20.  What a handle holds.  A closure that [GetFunction] returns holds
    the [sptr_to_self] it was called with and an address that is not null,
    namely the one the engine of the module gives for the name. *)
Theorem GetFunction_handle_is_resolved
        (s s' : State) (fname : string) (sptr faddr captured : N) :
  GetFunction fname sptr s = (Done (PackedFunc_closure faddr captured), s') ->
  faddr <> 0%N
  /\ captured = sptr
  /\ exists e, ee_ (node s') = Some e /\ faddr = getFunctionAddress e fname.
Proof.
  intros Hget.
  destruct (ensure_engine s) as [[[]|f0] s1] eqn:Hens.
  - destruct (ensure_engine_ready s s1 Hens) as [e He].
    rewrite (GetFunction_after_ensure s s1 fname sptr Hens) in Hget.
    rewrite (GetFunction_locked_ready s1 e fname sptr He) in Hget.
    rewrite (GetFunction_ready s1 e fname sptr He) in Hget.
    destruct (N.eqb_spec (getFunctionAddress e fname) 0) as [Ha|Ha];
      [discriminate|].
    injection Hget as <- <- <-.
    split; [exact Ha|]. split; [reflexivity|]. now exists e.
  - destruct (lookup_after_failed_ensure s s1 f0 fname sptr
                (mkTVMContext 0 0) Hens) as [H _].
    rewrite H in Hget. discriminate.
Qed.

End BridgeOutcomes.

(** ** More on emission *)

Section EmitterOutcomes.
Context {llvm : LLVMApi} {host : HostApi}.

(** X8.  A destination that cannot be opened is fatal before the format is
    looked at, for every format: the message names the path and carries the
    text of the error code, and nothing at all has changed. *)
Theorem SaveToFile_open_failure_fatal (s : State) (file_name format : string) :
  ec_value (open_status (proc s) file_name) <> 0%Z ->
  exists msg,
    SaveToFile file_name format s = (Fail (FatalError msg), s)
    /\ Text.contains file_name msg
    /\ Text.contains (ec_message (open_status (proc s) file_name)) msg.
Proof.
  intros Hopen. rewrite (SaveToFile_open_failure s file_name format Hopen).
  eexists. split; [reflexivity|]. split; solve_contains.
Qed.

(** X9.  Whatever its outcome, [SaveToFile] changes nothing but the file at
    the path it was given: the members of the module, the events, the heap,
    the last error and every other file are as before. *)
Theorem SaveToFile_touches_only_destination
        (s : State) (file_name format : string) :
  this (snd (SaveToFile file_name format s)) = this s
  /\ node (snd (SaveToFile file_name format s)) = node s
  /\ events (proc (snd (SaveToFile file_name format s))) = events (proc s)
  /\ heap (proc (snd (SaveToFile file_name format s))) = heap (proc s)
  /\ last_error (proc (snd (SaveToFile file_name format s))) = last_error (proc s)
  /\ forall path,
       path <> file_name ->
       files (proc (snd (SaveToFile file_name format s))) !! path
       = files (proc s) !! path.
Proof.
  destruct (Z.eq_dec (ec_value (open_status (proc s) file_name)) 0%Z) as [Hopen|Hopen].
  - rewrite (SaveToFile_opened s file_name format Hopen). cbv zeta.
    assert (Hopened : forall path, path <> file_name ->
              files (proc (opened file_name s)) !! path = files (proc s) !! path).
    { intros path Hne. unfold opened. simpl. now rewrite lookup_insert_ne. }
    assert (Hwritten : forall data path, path <> file_name ->
              files (proc (written file_name data s)) !! path = files (proc s) !! path).
    { intros data path Hne. unfold written, opened. simpl.
      now rewrite !lookup_insert_ne. }
    repeat match goal with
           | |- context [if ?b then _ else _] => destruct b
           | |- context [match ?o with Some _ => _ | None => _ end] => destruct o
           end; cbn [fst snd]; repeat split; auto.
  - rewrite (SaveToFile_open_failure s file_name format Hopen). simpl.
    repeat split.
Qed.

(** X10.  A save in the format [ll] that returns has put into the file the
    text that [GetSource] returns, which does not depend on the format given
    to [GetSource]; saving again changes nothing. *)
Theorem SaveToFile_ll_is_GetSource
        (s s1 : State) (file_name format : string) :
  GetFileFormat file_name format = "ll" ->
  SaveToFile file_name format s = (Done tt, s1) ->
  exists text,
    (forall f, GetSource f s = (Done text, s))
    /\ files (proc s1) !! file_name = Some text
    /\ SaveToFile file_name format s1 = (Done tt, s1).
Proof.
  intros Hfmt Hsave.
  destruct (Z.eq_dec (ec_value (open_status (proc s) file_name)) 0%Z) as [Hopen|Hopen];
    [|rewrite (SaveToFile_open_failure s file_name format Hopen) in Hsave;
      discriminate].
  rewrite (SaveToFile_opened s file_name format Hopen) in Hsave.
  cbv zeta in Hsave. rewrite Hfmt in Hsave. simpl in Hsave.
  destruct (mptr_ (node s)) as [m|] eqn:Hm; [|discriminate].
  injection Hsave as <-.
  exists (print m). split; [|split].
  - intros f. unfold GetSource. unfold_M. now rewrite Hm.
  - apply written_contents.
  - assert (Hopen1 : ec_value (open_status (proc (written file_name (print m) s))
                                file_name) = 0%Z) by exact Hopen.
    rewrite (SaveToFile_opened _ file_name format Hopen1).
    cbv zeta. rewrite Hfmt. simpl. rewrite Hm.
    f_equal. unfold written, opened, on_proc, append_file, set_file. simpl.
    rewrite !lookup_insert_eq. simpl. now rewrite !insert_insert_eq.
Qed.

(** X11.  Once the destination was opened, every failure of [SaveToFile]
    (a format it does not know, no target machine, a target that cannot
    emit, no unit) leaves the file in place and empty: what the file held
    before is gone. *)
Theorem SaveToFile_failure_leaves_empty_file
        (s s' : State) (f : Failure) (file_name format : string) :
  ec_value (open_status (proc s) file_name) = 0%Z ->
  SaveToFile file_name format s = (Fail f, s') ->
  files (proc s') !! file_name = Some "".
Proof.
  intros Hopen. rewrite (SaveToFile_opened s file_name format Hopen). cbv zeta.
  assert (Hempty : files (proc (opened file_name s)) !! file_name = Some "").
  { unfold opened. simpl. apply lookup_insert_eq. }
  repeat match goal with
         | |- context [if ?b then _ else _] => destruct b
         | |- context [match ?o with Some _ => _ | None => _ end] => destruct o
         end; intros [= <- <-] || discriminate; exact Hempty.
Qed.

(** X12.  [GetSource] checks [mptr_] before it prints and never changes the
    state: without a unit it fails on its [CHECK].  [SaveToFile] has no
    such check: without a unit, the formats [ll] and [bc] dereference the
    null pointer, after the destination was opened. *)
Theorem unit_pointer_is_guarded_in_GetSource_only
        (s : State) (file_name format source_format : string) :
  mptr_ (node s) = None ->
  GetSource source_format s
  = (Fail (FatalError "Check failed: mptr_ != nullptr "), s)
  /\ (ec_value (open_status (proc s) file_name) = 0%Z ->
      GetFileFormat file_name format = "ll"
      \/ GetFileFormat file_name format = "bc" ->
      SaveToFile file_name format s = (Fail NullDereference, opened file_name s)).
Proof.
  intros Hm. split.
  - unfold GetSource. unfold_M. now rewrite Hm.
  - intros Hopen Hfmt.
    rewrite (SaveToFile_opened s file_name format Hopen). cbv zeta.
    rewrite Hm. destruct Hfmt as [-> | ->]; reflexivity.
Qed.

(** X13.  For the formats [o] and [obj] with a target machine that cannot
    emit an object file, [SaveToFile] fails on the [CHECK] of lines 72-74
    and its message says so; the unit is not read, so this is the outcome
    with or without a unit. *)
Theorem SaveToFile_object_emission_refused
        (s : State) (tm : TargetMachine) (file_name format : string) :
  ec_value (open_status (proc s) file_name) = 0%Z ->
  GetFileFormat file_name format = "o" \/ GetFileFormat file_name format = "obj" ->
  tm_ (node s) = Some tm ->
  addPassesToEmitFile tm = true ->
  exists msg,
    SaveToFile file_name format s = (Fail (FatalError msg), opened file_name s)
    /\ Text.contains "Cannot emit target CGFT_ObjectFile" msg.
Proof.
  intros Hopen Hfmt Htm Hemit.
  rewrite (SaveToFile_opened s file_name format Hopen). cbv zeta.
  rewrite Htm, Hemit.
  destruct Hfmt as [-> | ->]; simpl;
    (eexists; split; [reflexivity | solve_contains]).
Qed.

End EmitterOutcomes.

(** ** More on the life of a module *)

Section LifecycleOutcomes.
Context {llvm : LLVMApi} {host : HostApi}.


(** X15.  [codegen.build_llvm] does not construct the engine.  From a
    sequence with at least one definition it gives a module at the address
    asked for, with no engine, whose [module_] and [mptr_] are the same
    unit; no engine builder was made and the heap is as before.  From the
    empty sequence it fails and gives no unit. *)
Theorem build_llvm_is_lazy
        (address : N) (p : Process) (f0 : LoweredFunc) (rest : list LoweredFunc)
        (target : string) :
  (exists s u,
     build_llvm address (f0 :: rest) target p = (Done tt, s)
     /\ this s = address
     /\ ee_ (node s) = None
     /\ module_ (node s) = Some u
     /\ mptr_ (node s) = Some u
     /\ constructions s = constructions (mkState address new_node p)
     /\ heap (proc s) = heap p)
  /\ (exists msg s,
        build_llvm address [] target p = (Fail (FatalError msg), s)
        /\ ee_ (node s) = None
        /\ module_ (node s) = None
        /\ mptr_ (node s) = None).
Proof.
  split.
  - eexists _, _. unfold build_llvm, Init. unfold_M. simpl.
    split; [reflexivity|]. repeat split.
    unfold constructions. simpl. rewrite filter_app, length_app. simpl. lia.
  - eexists _, _. unfold build_llvm, Init. unfold_M. simpl.
    split; [reflexivity|]. repeat split.
Qed.

(** X16.  The whole life of a module whose engine gets constructed.  From a
    module without engine, a [GetFunction] that returns and then the
    destructor add these events, in this order: the engine is created, the
    static initialisers run once, (the context slot is stored,) the static
    destructors run, the engine is deleted.  The module never deletes the
    unit itself: the engine owns it. *)
Theorem lifecycle_events
        (s s1 : State) (fname : string) (sptr : N) (r : PackedFunc) :
  ee_ (node s) = None ->
  GetFunction fname sptr s = (Done r, s1) ->
  exists s2 made,
    destroy s1 = (Done tt, s2)
    /\ events (proc s2)
       = events (proc s) ++ made ++ [EvRunStatic true; EvDeleteEngine]
    /\ happens_before EvCreateEngine (EvRunStatic false) made
    /\ count_event (EvRunStatic false) made = 1
    /\ count_event (EvRunStatic true) made = 0
    /\ count_event EvDeleteModule made = 0
    /\ count_event EvDeleteEngine made = 0.
Proof.
  intros Hee Hget.
  destruct (ensure_engine s) as [[[]|f0] s'] eqn:Hens.
  - destruct (ensure_engine_ready s s' Hens) as [e He].
    rewrite (GetFunction_after_ensure s s' fname sptr Hens) in Hget.
    rewrite (GetFunction_locked_ready s' e fname sptr He) in Hget.
    rewrite (GetFunction_ready s' e fname sptr He) in Hget.
    injection Hget as _ <-.
    rewrite (ensure_engine_unbuilt s Hee) in Hens.
    apply LazyInitJIT_locked_inv in Hens as (m & tm & e' & _ & _ & _ & _ & ->).
    unfold destroy, constructed. unfold_M. simpl.
    destruct (N.eqb (getGlobalValueAddress e' tvm_module_ctx) 0).
    + eexists _, [EvEngineBuilder _; EvCreateEngine; EvRunStatic false].
      split; [reflexivity|]. simpl. rewrite <- !app_assoc.
      split; [reflexivity|].
      split; [now exists [EvEngineBuilder (negb (is_null (module_ (node s))))], [], []|].
      repeat split.
    + eexists _, [EvEngineBuilder _; EvCreateEngine; EvRunStatic false; EvStore _ _].
      split; [reflexivity|]. simpl. rewrite <- !app_assoc.
      split; [reflexivity|].
      split; [now eexists [EvEngineBuilder (negb (is_null (module_ (node s))))], [], [_]|].
      repeat split.
  - destruct (lookup_after_failed_ensure s s' f0 fname sptr
                (mkTVMContext 0 0) Hens) as [H _].
    rewrite H in Hget. discriminate.
Qed.

End LifecycleOutcomes.

(** ** More on several threads *)

Section ThreadSafetyFacts.
Context {llvm : LLVMApi} {host : HostApi}.

Lemma lookup_map {A B : Type} (g : A -> B) (l : list A) (i : nat) :
  map g l !! i = option_map g (l !! i).
Proof.
  revert i. induction l as [|a l IH]; intros [|i]; simpl; auto.
Qed.

Lemma start_threads (s : State) (calls : list (string * N)) (tid : nat) (t : Thread) :
  threads (start s calls) !! tid = Some t ->
  exists call,
    calls !! tid = Some call
    /\ t = mkThread (fst call) (snd call) AtEntry.
Proof.
  unfold start. simpl. rewrite lookup_map.
  destruct (calls !! tid) as [[fname sptr]|]; simpl; [|discriminate].
  intros [= <-]. now exists (fname, sptr).
Qed.

(** *** The lock *)

Lemma lock_discipline_start (s : State) (calls : list (string * N)) :
  lock_discipline (start s calls).
Proof.
  intros tid t Ht. apply start_threads in Ht as (call & _ & ->).
  simpl. split; discriminate.
Qed.

Lemma lock_discipline_move (c : Config) (tid : nat) (t : Thread) (l : Location)
      (s : State) (mu : option nat) :
  threads c !! tid = Some t ->
  lock_discipline c ->
  (holds_mutex l = true <-> mu = Some tid) ->
  (forall other, other <> tid -> (mutex_ c = Some other <-> mu = Some other)) ->
  lock_discipline (move tid t l c s mu).
Proof.
  intros Ht Hinv Hself Hothers other t' Hlook. simpl in *.
  destruct (decide (other = tid)) as [->|Hne].
  - rewrite list_lookup_insert_eq in Hlook by (eapply lookup_lt_Some; eauto).
    injection Hlook as <-. exact Hself.
  - rewrite list_lookup_insert_ne in Hlook by congruence.
    rewrite (Hinv other t' Hlook). now apply Hothers.
Qed.

Lemma lock_discipline_step (tid : nat) (c : Config) :
  lock_discipline c -> lock_discipline (step tid c).
Proof.
  intros Hinv. unfold step.
  destruct (threads c !! tid) as [t|] eqn:Ht; [|exact Hinv].
  pose proof (Hinv tid t Ht) as Hme.
  assert (Hfree : holds_mutex (th_at t) = false ->
                  forall l, holds_mutex l = false ->
                  forall s, lock_discipline (move tid t l c s (mutex_ c))).
  { intros Hno l Hl s. apply lock_discipline_move; [exact Ht | exact Hinv | | ].
    - rewrite Hl. split; [discriminate|]. intros Hmu.
      apply Hme in Hmu. congruence.
    - tauto. }
  assert (Hrelease : holds_mutex (th_at t) = true ->
                     forall l, holds_mutex l = false ->
                     forall s, lock_discipline (move tid t l c s None)).
  { intros Hyes l Hl s. apply lock_discipline_move; [exact Ht | exact Hinv | | ].
    - rewrite Hl. split; discriminate.
    - intros other Hne. apply Hme in Hyes. rewrite Hyes.
      split; [congruence | discriminate]. }
  assert (Hacquire : holds_mutex (th_at t) = false ->
                     forall l, holds_mutex l = true ->
                     lock_discipline (acquire tid t l c)).
  { intros Hno l Hl. unfold acquire.
    destruct (mutex_ c) as [holder|] eqn:Hmu; [exact Hinv|].
    apply lock_discipline_move; [exact Ht | exact Hinv | | ].
    - rewrite Hl. tauto.
    - intros other Hne. rewrite Hmu. split; [discriminate | congruence]. }
  destruct (th_at t) eqn:Hat.
  - destruct (is_null _); now apply Hfree.
  - destruct (LazyInitJIT_guard _) as [[[]|f] s]; now apply Hfree.
  - now apply Hacquire.
  - destruct (LazyInitJIT_locked _) as [[[]|f] s]; now apply Hrelease.
  - now apply Hacquire.
  - destruct (GetFunction_locked _ _ _) as [r s]. now apply Hrelease.
  - exact Hinv.
Qed.

Lemma lock_discipline_run (schedule : list nat) (c : Config) :
  lock_discipline c -> lock_discipline (run schedule c).
Proof.
  revert c. induction schedule as [|tid schedule IH]; intros c Hinv;
    [exact Hinv|].
  rewrite run_cons. apply IH. now apply lock_discipline_step.
Qed.

(** X17.  [mutex_] does what it is there for: under every schedule and for
    any number of callers, no two threads are at the same time inside the
    guarded parts of [GetFunction] (the construction of lines 118-139 and
    the lookup of lines 50-59), and a thread inside one is the holder of
    the mutex. *)
Theorem mutex_excludes
        (s : State) (calls : list (string * N)) (schedule : list nat)
        (i j : nat) (ti tj : Thread) :
  threads (run schedule (start s calls)) !! i = Some ti ->
  threads (run schedule (start s calls)) !! j = Some tj ->
  holds_mutex (th_at ti) = true ->
  holds_mutex (th_at tj) = true ->
  i = j /\ mutex_ (run schedule (start s calls)) = Some i.
Proof.
  intros Hi Hj Hti Htj.
  pose proof (lock_discipline_run schedule (start s calls)
                (lock_discipline_start s calls)) as Hinv.
  apply (Hinv i ti Hi) in Hti. apply (Hinv j tj Hj) in Htj.
  split; [congruence | exact Hti].
Qed.

(** *** Callers that find the engine constructed *)

Lemma past_construction_move (s : State) (calls : list (string * N)) (c : Config)
      (tid : nat) (t : Thread) (call : string * N) (l : Location) (mu : option nat) :
  all_past_construction s calls c ->
  threads c !! tid = Some t ->
  calls !! tid = Some call ->
  past_construction s (mkThread (th_name t) (th_sptr t) l) call ->
  all_past_construction s calls (move tid t l c s mu).
Proof.
  intros [Hs Hinv] Ht Hcall Hnew. split; [reflexivity|].
  intros other t' Hlook. simpl in Hlook.
  destruct (decide (other = tid)) as [->|Hne].
  - rewrite list_lookup_insert_eq in Hlook by (eapply lookup_lt_Some; eauto).
    injection Hlook as <-. now exists call.
  - rewrite list_lookup_insert_ne in Hlook by congruence. now apply Hinv.
Qed.

Lemma past_construction_step (s : State) (e : ExecutionEngine)
      (calls : list (string * N)) (tid : nat) (c : Config) :
  ee_ (node s) = Some e ->
  all_past_construction s calls c ->
  all_past_construction s calls (step tid c).
Proof.
  intros He Hall. unfold step.
  destruct (threads c !! tid) as [t|] eqn:Ht; [|exact Hall].
  destruct Hall as [Hs Hinv].
  destruct (Hinv tid t Ht) as (call & Hcall & Hn & Hp & Hat).
  assert (Hall : all_past_construction s calls c) by now split.
  rewrite Hs. unfold acquire.
  destruct (th_at t) eqn:Hloc; try contradiction.
  - rewrite He. simpl.
    now apply (past_construction_move s calls c tid t call).
  - destruct (mutex_ c); [exact Hall|]. rewrite Hs.
    now apply (past_construction_move s calls c tid t call).
  - rewrite (GetFunction_locked_ready s e _ _ He).
    rewrite (GetFunction_ready s e _ _ He).
    apply (past_construction_move s calls c tid t call); auto.
    repeat split; auto. simpl.
    now rewrite (GetFunction_ready s e _ _ He).
  - exact Hall.
Qed.

Lemma past_construction_run (s : State) (e : ExecutionEngine)
      (calls : list (string * N)) (schedule : list nat) (c : Config) :
  ee_ (node s) = Some e ->
  all_past_construction s calls c ->
  all_past_construction s calls (run schedule c).
Proof.
  intros He. revert c.
  induction schedule as [|tid schedule IH]; intros c Hall; [exact Hall|].
  rewrite run_cons. apply IH. now apply (past_construction_step s e).
Qed.

(** X18.  Once the engine is constructed, [GetFunction] is safe to call
    from any number of threads: under every schedule the module stays as it
    was, and every thread that has returned holds what its call gives when
    made alone, which is the empty function or a closure, never a
    failure. *)
Theorem GetFunction_threads_safe_once_constructed
        (s : State) (e : ExecutionEngine) (calls : list (string * N))
        (schedule : list nat) :
  ee_ (node s) = Some e ->
  shared (run schedule (start s calls)) = s
  /\ forall tid r,
       result_of tid (run schedule (start s calls)) = Some r ->
       exists fname sptr pf,
         calls !! tid = Some (fname, sptr)
         /\ r = fst (GetFunction fname sptr s)
         /\ r = Done pf.
Proof.
  intros He.
  assert (Hstart : all_past_construction s calls (start s calls)).
  { split; [reflexivity|]. intros tid t Ht.
    apply start_threads in Ht as (call & Hcall & ->).
    exists call. now repeat split. }
  destruct (past_construction_run s e calls schedule _ He Hstart) as [Hs Hinv].
  split; [exact Hs|].
  intros tid r. unfold result_of.
  destruct (threads (run schedule (start s calls)) !! tid) as [t|] eqn:Ht;
    [|discriminate].
  destruct (Hinv tid t Ht) as ([fname sptr] & Hcall & Hn & Hp & Hat).
  destruct (th_at t); try discriminate.
  intros [= <-]. simpl in Hn, Hp. subst r0.
  rewrite Hn, Hp.
  exists fname, sptr. eexists. split; [exact Hcall|]. split; [reflexivity|].
  now rewrite (GetFunction_ready s e fname sptr He).
Qed.

End ThreadSafetyFacts.

(** ** The statements on the toy implementation *)

Import Toy.

Lemma LazyInitJIT_layout_mismatch_fatal_witness :
  exists msg s',
    LazyInitJIT mismatched = (Fail (FatalError msg), s')
    /\ Text.contains other_layout msg
    /\ Text.contains host_layout msg
    /\ ee_ (node s') = None
    /\ events (proc s') = [EvEngineBuilder true].
Proof.
  apply (LazyInitJIT_layout_mismatch_fatal mismatched foreign_unit host_layout);
    [reflexivity | reflexivity | reflexivity | discriminate].
Defined.

Lemma LazyInitJIT_context_slot_witness :
  exists s',
    LazyInitJIT built = (Done tt, s')
    /\ ee_ (node s') = Some the_unit
    /\ let a := getGlobalValueAddress the_unit tvm_module_ctx in
       let made := [EvEngineBuilder (negb (is_null (module_ (node built))));
                    EvCreateEngine; EvRunStatic false] in
       (a <> 0%N ->
          heap (proc s') = <[a := this built]> (heap (proc built))
          /\ events (proc s')
             = events (proc built) ++ made ++ [EvStore a (this built)])
       /\ (a = 0%N ->
            heap (proc s') = heap (proc built)
            /\ events (proc s') = events (proc built) ++ made).
Proof.
  apply (LazyInitJIT_context_slot built the_unit host_layout the_unit);
    reflexivity.
Defined.

Lemma GetFunction_absent_or_handle_witness :
  exists e,
    ee_ (node ready) = Some e
    /\ (getFunctionAddress e "fmul" = 0%N ->
          GetFunction "fmul" 256 built = (Done PackedFunc_null, ready))
    /\ (getFunctionAddress e "fmul" <> 0%N ->
          GetFunction "fmul" 256 built
          = (Done (PackedFunc_closure (getFunctionAddress e "fmul") 256), ready)).
Proof.
  apply (GetFunction_absent_or_handle built ready "fmul" 256).
  vm_compute. reflexivity.
Defined.

Lemma PreCompile_fatal_iff_unresolved_witness :
  exists e,
    ee_ (node ready) = Some e
    /\ (getFunctionAddress e "fsub" = 0%N <->
          PreCompile "fsub" (mkTVMContext 1 0) built
          = (Fail (FatalError ("Check failed: faddr != nullptr "
                                 +:+ "Failed to Precompile function " +:+ "fsub")),
             ready))
    /\ (getFunctionAddress e "fsub" <> 0%N <->
          PreCompile "fsub" (mkTVMContext 1 0) built = (Done tt, ready)).
Proof.
  apply (PreCompile_fatal_iff_unresolved built ready "fsub" (mkTVMContext 1 0)).
  vm_compute. reflexivity.
Defined.

Lemma PackedFunc_call_status_witness :
  ((-1)%Z <> 0%Z ->
     exists msg,
       PackedFunc_call (PackedFunc_closure 32 256) (mkTVMArgs [7; 9]%Z [0; 0]%Z 2) process0
       = (Fail (FatalError msg), after_bad_call)
       /\ Text.contains (last_error after_bad_call) msg
       /\ msg = "Check failed: ret == 0 " +:+ last_error after_bad_call)
  /\ ((-1)%Z = 0%Z ->
        PackedFunc_call (PackedFunc_closure 32 256) (mkTVMArgs [7; 9]%Z [0; 0]%Z 2) process0
        = (Done tt, after_bad_call)).
Proof.
  apply (PackedFunc_call_status 32 256 (mkTVMArgs [7; 9]%Z [0; 0]%Z 2)
                                process0 after_bad_call (-1)%Z).
  reflexivity.
Defined.

Lemma SaveToFile_formats_witness :
  SaveToFile "out.ll" "" built = (Done tt, written "out.ll" (print the_unit) built)
  /\ exists msg,
       SaveToFile "out" "xyz" built = (Fail (FatalError msg), opened "out" built)
       /\ Text.contains "out" msg
       /\ Text.contains "xyz" msg.
Proof.
  split.
  - apply (SaveToFile_formats built "out.ll" ""); reflexivity.
  - apply (SaveToFile_formats built "out" "xyz"); [reflexivity | discriminate..].
Defined.

Lemma GetSource_ignores_format_witness :
  GetSource "ll" built = (Done (print the_unit), built)
  /\ GetSource "asm" built = GetSource "ll" built.
Proof.
  apply (GetSource_ignores_format built the_unit "ll" "asm"). reflexivity.
Defined.

Lemma destructor_runs_static_destructors_first_witness :
  exists s' done,
    destroy ready = (Done tt, s')
    /\ events (proc s') = events (proc ready) ++ done
    /\ happens_before (EvRunStatic true) EvDeleteEngine done
    /\ count_event (EvRunStatic true) done = 1
    /\ count_event EvDeleteEngine done = 1
    /\ last done = Some EvDeleteEngine.
Proof.
  apply (destructor_runs_static_destructors_first ready the_unit). reflexivity.
Defined.

Lemma GetFunction_unsynchronised_guard_witness :
  constructions
    (shared (run [0; 1; 0; 1; 0; 0; 1; 1]
                 (start built [("fadd", 256%N); ("fmul", 256%N)])))
  = constructions built + 2
  /\ constructions
       (shared (run [0; 1; 0; 0; 0; 1]
                    (start built [("fadd", 256%N); ("fmul", 256%N)])))
     = constructions built + 1
  /\ result_of 1 (run [0; 1; 0; 0; 0; 1]
                      (start built [("fadd", 256%N); ("fmul", 256%N)]))
     = Some (Fail (FatalError "Check failed: ee_ == nullptr ")).
Proof.
  apply (GetFunction_unsynchronised_guard built ready "fadd" "fmul" 256 256);
    vm_compute; reflexivity.
Defined.

(** C6 as it is written does not hold: a destination that cannot be opened
    is fatal first, whatever the format, and that message holds the path
    and the text of the system, not the format. *)
Lemma SaveToFile_unopened_counterexample :
  GetFileFormat "/ro/out" "xyz" <> "o"
  /\ GetFileFormat "/ro/out" "xyz" <> "obj"
  /\ GetFileFormat "/ro/out" "xyz" <> "ll"
  /\ GetFileFormat "/ro/out" "xyz" <> "bc"
  /\ SaveToFile "/ro/out" "xyz" built
     = (Fail (FatalError ("Check failed: ecode.value() == 0 "
                            +:+ "Cannot open file: /ro/out Permission denied")),
        built)
  /\ ~ (exists msg s',
          SaveToFile "/ro/out" "xyz" built = (Fail (FatalError msg), s')
          /\ Text.contains "/ro/out" msg
          /\ Text.contains "xyz" msg).
Proof.
  repeat split; try discriminate.
  intros (msg & s' & Hrun & _ & Hfmt).
  assert (Hmsg : msg = "Check failed: ecode.value() == 0 "
                         +:+ "Cannot open file: /ro/out Permission denied").
  { vm_compute in Hrun. now injection Hrun. }
  subst msg. apply containsb_spec in Hfmt. vm_compute in Hfmt. discriminate.
Qed.

(** ** The further facts on the toy implementation *)

Lemma LazyInitJIT_create_failure_fatal_witness :
  exists msg s',
    LazyInitJIT unowned = (Fail (FatalError msg), s')
    /\ msg = "Check failed: ee_ != nullptr Failed to initialize git engine for "
               +:+ getTargetTriple the_unit
    /\ Text.contains (getTargetTriple the_unit) msg
    /\ ee_ (node s') = None
    /\ module_ (node s') = None
    /\ heap (proc s') = heap (proc unowned)
    /\ events (proc s')
       = events (proc unowned)
           ++ [EvEngineBuilder (negb (is_null (module_ (node unowned))));
               EvCreateEngine].
Proof.
  apply (LazyInitJIT_create_failure_fatal unowned the_unit host_layout);
    reflexivity.
Defined.


Lemma construction_keeps_observation_witness :
  module_ (node ready) = None
  /\ mptr_ (node ready) = mptr_ (node built)
  /\ tm_ (node ready) = tm_ (node built)
  /\ target_triple_ (node ready) = target_triple_ (node built)
  /\ files (proc ready) = files (proc built)
  /\ forall format, fst (GetSource format ready) = fst (GetSource format built).
Proof.
  apply (construction_keeps_observation built ready). vm_compute. reflexivity.
Defined.

Lemma PreCompile_then_GetFunction_witness :
  exists faddr,
    faddr <> 0%N
    /\ forall sptr,
         GetFunction "fadd" sptr ready = (Done (PackedFunc_closure faddr sptr), ready)
         /\ GetFunction "fadd" sptr built = (Done (PackedFunc_closure faddr sptr), ready).
Proof.
  apply (PreCompile_then_GetFunction built ready "fadd" (mkTVMContext 1 0)).
  vm_compute. reflexivity.
Defined.

Lemma GetFunction_repeatable_witness :
  GetFunction "fadd" 256 ready = (Done (PackedFunc_closure 16 256), ready)
  /\ (forall fname' sptr', snd (GetFunction fname' sptr' ready) = ready)
  /\ (forall fname' ctx, snd (PreCompile fname' ctx ready) = ready)
  /\ constructions ready
     = constructions built + (if is_null (ee_ (node built)) then 1 else 0).
Proof.
  apply (GetFunction_repeatable built ready "fadd" 256 (PackedFunc_closure 16 256)).
  vm_compute. reflexivity.
Defined.

Lemma SaveToFile_open_failure_fatal_witness :
  exists msg,
    SaveToFile "/ro/out.ll" "" built = (Fail (FatalError msg), built)
    /\ Text.contains "/ro/out.ll" msg
    /\ Text.contains (ec_message (open_status (proc built) "/ro/out.ll")) msg.
Proof.
  apply (SaveToFile_open_failure_fatal built "/ro/out.ll" ""). discriminate.
Defined.

Lemma SaveToFile_ll_is_GetSource_witness :
  exists text,
    (forall f, GetSource f built = (Done text, built))
    /\ files (proc saved) !! "out.ll" = Some text
    /\ SaveToFile "out.ll" "" saved = (Done tt, saved).
Proof.
  apply (SaveToFile_ll_is_GetSource built saved "out.ll" "");
    vm_compute; reflexivity.
Defined.

Lemma SaveToFile_failure_leaves_empty_file_witness :
  files (proc saved) !! "out.ll" = Some (print the_unit)
  /\ files (proc (snd (SaveToFile "out.ll" "xyz" saved))) !! "out.ll" = Some "".
Proof.
  split; [vm_compute; reflexivity|].
  apply (SaveToFile_failure_leaves_empty_file
           saved (snd (SaveToFile "out.ll" "xyz" saved))
           (FatalError (unknown_format_message "out.ll" "xyz")) "out.ll" "xyz");
    vm_compute; reflexivity.
Defined.

Lemma unit_pointer_is_guarded_in_GetSource_only_witness :
  GetSource "ll" fresh = (Fail (FatalError "Check failed: mptr_ != nullptr "), fresh)
  /\ (ec_value (open_status (proc fresh) "out.bc") = 0%Z ->
      GetFileFormat "out.bc" "" = "ll" \/ GetFileFormat "out.bc" "" = "bc" ->
      SaveToFile "out.bc" "" fresh = (Fail NullDereference, opened "out.bc" fresh)).
Proof.
  apply (unit_pointer_is_guarded_in_GetSource_only fresh "out.bc" "" "ll").
  reflexivity.
Defined.

Lemma SaveToFile_object_emission_refused_witness :
  exists msg,
    @SaveToFile ToyNoObject.llvm_no_object ToyNoObject.host_no_object
                "out.o" "" ToyNoObject.built
    = (Fail (FatalError msg),
       @opened ToyNoObject.llvm_no_object "out.o" ToyNoObject.built)
    /\ Text.contains "Cannot emit target CGFT_ObjectFile" msg.
Proof.
  apply (@SaveToFile_object_emission_refused
           ToyNoObject.llvm_no_object ToyNoObject.host_no_object
           ToyNoObject.built host_layout "out.o" "");
    [reflexivity | left; reflexivity | reflexivity | reflexivity].
Defined.

Lemma lifecycle_events_witness :
  exists s2 made,
    destroy ready = (Done tt, s2)
    /\ events (proc s2)
       = events (proc built) ++ made ++ [EvRunStatic true; EvDeleteEngine]
    /\ happens_before EvCreateEngine (EvRunStatic false) made
    /\ count_event (EvRunStatic false) made = 1
    /\ count_event (EvRunStatic true) made = 0
    /\ count_event EvDeleteModule made = 0
    /\ count_event EvDeleteEngine made = 0.
Proof.
  apply (lifecycle_events built ready "fadd" 256 (PackedFunc_closure 16 256));
    vm_compute; reflexivity.
Defined.

(** Two callers on [built], the first of which has come to hold the
    mutex. *)
Lemma mutex_excludes_witness :
  0 = 0
  /\ mutex_ (run [0; 1; 0; 1; 0]
                 (start built [("fadd", 256%N); ("fmul", 256%N)]))
     = Some 0.
Proof.
  apply (mutex_excludes built [("fadd", 256%N); ("fmul", 256%N)] [0; 1; 0; 1; 0]
                        0 0
                        (mkThread "fadd" 256 AtInitBody)
                        (mkThread "fadd" 256 AtInitBody));
    vm_compute; reflexivity.
Defined.

Lemma GetFunction_threads_safe_once_constructed_witness :
  shared (run [0; 1; 1; 0; 1; 0] (start ready [("fadd", 256%N); ("fsub", 256%N)]))
  = ready
  /\ forall tid r,
       result_of tid (run [0; 1; 1; 0; 1; 0]
                          (start ready [("fadd", 256%N); ("fsub", 256%N)]))
       = Some r ->
       exists fname sptr pf,
         [("fadd", 256%N); ("fsub", 256%N)] !! tid = Some (fname, sptr)
         /\ r = fst (GetFunction fname sptr ready)
         /\ r = Done pf.
Proof.
  apply (GetFunction_threads_safe_once_constructed
           ready the_unit [("fadd", 256%N); ("fsub", 256%N)] [0; 1; 1; 0; 1; 0]).
  vm_compute. reflexivity.
Defined.

Lemma GetFunction_handle_is_resolved_witness :
  (32 <> 0)%N
  /\ (256 = 256)%N
  /\ exists e, ee_ (node ready) = Some e /\ 32%N = getFunctionAddress e "fmul".
Proof.
  apply (GetFunction_handle_is_resolved built ready "fmul" 256 32 256).
  vm_compute. reflexivity.
Defined.
